(** * lmsilo-core shared-ui: job status, polling, socket and request hooks

    A shallow embedding of the TypeScript sources of [shared-ui]:
    - [JobQueue.tsx]    : [getStatusConfig], the case-insensitive status classifier;
    - [StatusBadge.tsx] : the [statusConfig] table and its lookup;
    - [JobList.tsx]     : [fetchJobs], the poll that fills the job list
                          (the file [unnamed/part_001]);
    - [useWebSocket.ts] : [connect], [disconnect] and the socket handlers
                          (it follows the theme hook in [hooks/useTheme.ts]);
    - [useApi.ts]       : [handleResponse], [fetchData], [post], [put], [del];
    - [types.ts]        : [Job], [PaginatedResponse], [ApiError]
                          (it follows the exports in [index.ts]);
    - [useTheme.ts]     : [getCookie], [setCookie] and the effects of [useTheme];
    - [ErrorBoundary.tsx] (the file [unnamed/part_000]) and the theme of
                          [portal/src/App.tsx].

    React state cells ([useState]) and refs ([useRef]) become record fields and
    every handler becomes a function from state to state.  Promises are
    modelled by their settlement: [Ok v] is a promise resolved with [v],
    [Throw e] a promise rejected with [e]; the same type models [try]/[catch].

    The first part of the file holds the embedding, the second the theorems. *)

From stdpp Require Import gmap strings list.
From Stdlib Require Import ZArith Ascii DecimalString.

Open Scope string_scope.
Set Warnings "-register-all".

(** ** JavaScript values shared by the modules *)
Module Js.

(** JSON documents, as [JSON.parse] and [response.json()] deliver them.
    Numbers are kept as integers: no claim depends on fractions. *)
Inductive json : Type :=
| JNull
| JBool (b : bool)
| JNum (n : Z)
| JStr (s : string)
| JArr (items : list json)
| JObj (fields : list (string * json)).

(** A value that can be stored in a state cell or thrown: a JSON document
    (with [JNull] for [null]) or an [Error] object such as the [TypeError]
    of a failed [fetch] or the [SyntaxError] of a failed parse. *)
Inductive Value : Type :=
| VJson (j : json)
| VError (name message : string).

Definition null : Value := VJson JNull.

(** Settlement of a computation that may throw (or of a promise). *)
Inductive Outcome (A : Type) : Type :=
| Ok (a : A)
| Throw (e : Value).
Arguments Ok {A} a.
Arguments Throw {A} e.

Definition bind {A B} (m : Outcome A) (k : A -> Outcome B) : Outcome B :=
  match m with
  | Ok a => k a
  | Throw e => Throw e
  end.

(** [try { m } catch (e) { h e }] *)
Definition try_catch {A} (m : Outcome A) (h : Value -> A) : A :=
  match m with
  | Ok a => a
  | Throw e => h e
  end.

(** [obj.key] on a parsed object; [None] is [undefined]. *)
Fixpoint assoc (key : string) (fields : list (string * json)) : option json :=
  match fields with
  | [] => None
  | (k, v) :: rest => if String.eqb k key then Some v else assoc key rest
  end.

Definition prop (key : string) (v : Value) : option json :=
  match v with
  | VJson (JObj fields) => assoc key fields
  | VJson _ => None
  | VError _ m => if String.eqb key "message" then Some (JStr m) else None
  end.

(** [hay.includes(needle)] on strings. *)
Fixpoint str_includes (needle hay : string) : bool :=
  String.prefix needle hay ||
  match hay with
  | EmptyString => false
  | String _ rest => str_includes needle rest
  end.

(** [String(n)] for a non-negative integer, as in a template literal. *)
Definition string_of_nat (n : nat) : string :=
  NilEmpty.string_of_uint (Nat.to_uint n).

(** [String.prototype.toLowerCase], on the ASCII letters.  Characters
    outside ASCII are left alone; none of them lower-cases to a string
    that occurs in the status tables below, which hold ASCII words
    without [k] (the only letter a non-ASCII character folds to). *)
Definition lower_ascii (c : ascii) : ascii :=
  let n := nat_of_ascii c in
  if (65 <=? n)%nat && (n <=? 90)%nat then ascii_of_nat (n + 32) else c.

Fixpoint toLowerCase (s : string) : string :=
  match s with
  | EmptyString => EmptyString
  | String c rest => String (lower_ascii c) (toLowerCase rest)
  end.


(** [list.includes(s)] on an array of strings. *)
Definition includes (l : list string) (s : string) : bool :=
  bool_decide (s ∈ l).

End Js.

(** ** JobQueue.tsx: [getStatusConfig] *)
Module JobQueue.
Import Js.

Inductive Icon : Type := CheckCircle2 | XCircle | Clock | Loader2.

Record StatusConfig : Type := mkStatusConfig {
  icon : Icon;
  bgColor : string;
  iconColor : string;
  pillClass : string;
  barColor : string
}.

Definition completedConfig : StatusConfig := {|
  icon := CheckCircle2;
  bgColor := "bg-olive-100 dark:bg-olive-900/30";
  iconColor := "text-olive-600 dark:text-olive-400";
  pillClass := "bg-olive-100 dark:bg-olive-900/30 text-olive-700 dark:text-olive-300";
  barColor := "bg-olive-500" |}.

Definition failedConfig : StatusConfig := {|
  icon := XCircle;
  bgColor := "bg-red-100 dark:bg-red-900/30";
  iconColor := "text-red-600 dark:text-red-400";
  pillClass := "bg-red-100 dark:bg-red-900/30 text-red-700 dark:text-red-300";
  barColor := "bg-red-500" |}.

Definition processingConfig : StatusConfig := {|
  icon := Loader2;
  bgColor := "bg-olive-100 dark:bg-olive-900/30";
  iconColor := "text-olive-600 dark:text-olive-400 animate-spin";
  pillClass := "bg-olive-100 dark:bg-olive-900/30 text-olive-700 dark:text-olive-300";
  barColor := "bg-olive-500" |}.

(** The "Default / Queued" branch. *)
Definition defaultConfig : StatusConfig := {|
  icon := Clock;
  bgColor := "bg-cream-200 dark:bg-dark-50";
  iconColor := "text-surface-500";
  pillClass := "bg-cream-200 dark:bg-dark-50 text-surface-600 dark:text-surface-400";
  barColor := "bg-surface-300 dark:bg-surface-700" |}.

Definition completedWords : list string := ["completed"; "done"; "success"].
Definition failedWords : list string := ["failed"; "error"].
Definition processingWords : list string :=
  ["processing"; "extracting"; "transcribing"; "detecting"; "translating"; "diarizing"].

(** Every word some branch of [getStatusConfig] recognises. *)
Definition knownWords : list string :=
  completedWords ++ failedWords ++ processingWords.

Definition getStatusConfig (status : string) : StatusConfig :=
  let s := toLowerCase status in
  if includes completedWords s then completedConfig
  else if includes failedWords s then failedConfig
  else if includes processingWords s then processingConfig
  else defaultConfig.

End JobQueue.

(** ** StatusBadge.tsx: the [statusConfig] table *)
Module StatusBadge.
Import Js.

(** What the badge reads of the configuration it renders with: [config.bg],
    [config.text] and [config.label], each [None] when [undefined]. *)
Record BadgeConfig : Type := Build_Badge {
  bg : option string;
  text : option string;
  label : option string
}.

(** An object literal [{ bg, text, label }]. *)
Definition mkBadge (b t l : string) : BadgeConfig :=
  {| bg := Some b; text := Some t; label := Some l |}.

(** [statusConfig]: a record keyed by the exact status string. *)
Definition statusConfig : list (string * BadgeConfig) := [
  ("pending",    mkBadge "#fef3c7" "#92400e" "Pending");
  ("queued",     mkBadge "#e0e7ff" "#3730a3" "Queued");
  ("processing", mkBadge "#dbeafe" "#1e40af" "Processing");
  ("completed",  mkBadge "#dcfce7" "#166534" "Completed");
  ("failed",     mkBadge "#fee2e2" "#dc2626" "Failed");
  ("cancelled",  mkBadge "#f3f4f6" "#6b7280" "Cancelled");
  ("success",    mkBadge "#dcfce7" "#166534" "Success");
  ("error",      mkBadge "#fee2e2" "#dc2626" "Error")
].

Fixpoint lookup_config (key : string) (table : list (string * BadgeConfig))
  : option BadgeConfig :=
  match table with
  | [] => None
  | (k, c) :: rest => if String.eqb k key then Some c else lookup_config key rest
  end.

(** [statusConfig] is a plain object, so [statusConfig[status]] also finds
    the members it inherits from [Object.prototype].  They are functions
    (and, for [__proto__], the prototype object): truthy, and without a
    [bg], [text] or [label] of their own. *)
Definition inheritedNames : list string :=
  ["constructor"; "__defineGetter__"; "__defineSetter__"; "hasOwnProperty";
   "__lookupGetter__"; "__lookupSetter__"; "isPrototypeOf";
   "propertyIsEnumerable"; "toString"; "valueOf"; "__proto__";
   "toLocaleString"].

Definition inheritedMember : BadgeConfig :=
  {| bg := None; text := None; label := None |}.

(** [statusConfig[status] || { bg: '#f3f4f6', text: '#6b7280', label: status }],
    the configuration the badge renders with: the table's entry for the
    exact key, else an inherited member, else the fallback. *)
Definition badgeConfig (status : string) : BadgeConfig :=
  match lookup_config status statusConfig with
  | Some c => c
  | None =>
      if includes inheritedNames status then inheritedMember
      else mkBadge "#f3f4f6" "#6b7280" status
  end.

End StatusBadge.

(** ** JobList.tsx: [fetchJobs] *)
Module JobList.
Import Js.

(** [Job] of [types.ts].  [status] is typed [JobStatus] in the source but
    arrives unvalidated from JSON, so it is kept as the string received. *)
Record Job : Type := mkJob {
  id : string;
  filename : option string;
  status : string;
  progress : option Z;
  created_at : string;
  started_at : option string;
  completed_at : option string;
  error : option string;
  metadata : option (list (string * json))
}.

(** [PaginatedResponse<Job>] of [types.ts]. *)
Record PaginatedResponse : Type := mkPage {
  items : list Job;
  total : Z;
  page : Z;
  page_size : Z;
  has_more : bool
}.

(** What [response.json()] yields for the poll endpoint: the paginated
    envelope or a bare array. *)
Inductive PollData : Type :=
| Paginated (r : PaginatedResponse)
| BareArray (jobs : list Job).

(** [data.items || data]: an array is truthy even when empty, and a bare
    array has no [items] property. *)
Definition items_or_data (data : PollData) : list Job :=
  match data with
  | Paginated r => items r
  | BareArray jobs => jobs
  end.

(** The settlement of [fetch(...)] as [fetchJobs] sees it: the promise
    rejects, or a response arrives with its [ok] flag and the settlement
    of its [json()] promise. *)
Inductive FetchResult : Type :=
| FetchRejected (e : Value)
| FetchResponse (ok : bool) (body : Outcome PollData).

(** The three state cells of the component. *)
Record State : Type := mkState {
  jobs : list Job;
  loading : bool;
  error_message : option string
}.

(** [useState] initial values. *)
Definition initial : State :=
  {| jobs := []; loading := true; error_message := None |}.

(** [err instanceof Error ? err.message : 'Unknown error'] *)
Definition message_of (e : Value) : string :=
  match e with
  | VError _ m => m
  | VJson _ => "Unknown error"
  end.

(** The body of the [try] block, up to the value handed to [setJobs]. *)
Definition fetched (r : FetchResult) : Outcome (list Job) :=
  match r with
  | FetchRejected e => Throw e
  | FetchResponse ok body =>
      if negb ok then Throw (VError "Error" "Failed to fetch jobs")
      else bind body (fun data => Ok (items_or_data data))
  end.

Definition fetchJobs (st : State) (r : FetchResult) : State :=
  match fetched r with
  | Ok js => {| jobs := js; loading := false; error_message := None |}
  | Throw e => {| jobs := jobs st; loading := false;
                  error_message := Some (message_of e) |}
  end.

(** The record the list shows for a job id: the first entry with that id
    (React keys the rows by [job.id]). *)
Fixpoint find_job (i : string) (js : list Job) : option Job :=
  match js with
  | [] => None
  | j :: rest => if String.eqb (id j) i then Some j else find_job i rest
  end.

Definition status_of (i : string) (st : State) : option string :=
  status <$> find_job i (jobs st).

(** The terminal kinds of [JobStatus]. *)
Definition is_terminal (s : string) : bool :=
  includes ["completed"; "failed"; "cancelled"] s.

(** Polls processed in arrival order. *)
Definition fetchAll (st : State) (rs : list FetchResult) : State :=
  fold_left fetchJobs rs st.

End JobList.

(** ** useWebSocket.ts *)
Module WebSocketHook.
Import Js.

(** [UseWebSocketOptions], with the defaults of the destructuring. *)
Record Options : Type := mkOptions {
  reconnect : bool;
  reconnectInterval : Z;
  maxReconnectAttempts : Z
}.

Definition defaultOptions : Options :=
  {| reconnect := true; reconnectInterval := 3000; maxReconnectAttempts := 5 |}.

(** What the hook takes from its platform: the JSON parser, which throws a
    [SyntaxError] on text that is not JSON, and whether [new WebSocket(url)]
    accepts the url (it throws on a malformed one). *)
Record Platform : Type := mkPlatform {
  JSON_parse : string -> Outcome json;
  url_accepted : bool
}.

(** [WebSocket.readyState] *)
Inductive ReadyState : Type := CONNECTING | OPEN | CLOSING | CLOSED.

#[global] Instance ReadyState_eq_dec : EqDecision ReadyState.
Proof. solve_decision. Defined.

(** The [status] cell. *)
Inductive Status : Type := connecting | connected | disconnected | error.

#[global] Instance Status_eq_dec : EqDecision Status.
Proof. solve_decision. Defined.

(** The [message] cell holds the parsed document or, for a frame that does
    not parse, the frame itself. *)
Inductive Message : Type :=
| Parsed (j : json)
| Raw (data : string).

(** The hook's cells and refs, together with the part of the browser they
    point into: every socket the hook has created with its ready state,
    and the timeouts that are armed.  Sockets and timeouts are named by
    numbers; timeout ids start at 1, as in browsers. *)
Record State : Type := mkState {
  message : option Message;
  status : Status;
  wsRef : option nat;
  reconnectAttemptsRef : Z;
  reconnectTimeoutRef : option nat;
  sockets : gmap nat ReadyState;
  timers : gset nat;
  next_socket : nat;
  next_timer : nat
}.

Definition initial : State := {|
  message := None;
  status := disconnected;
  wsRef := None;
  reconnectAttemptsRef := 0;
  reconnectTimeoutRef := None;
  sockets := ∅;
  timers := ∅;
  next_socket := 0;
  next_timer := 1 |}.

Definition setStatus (v : Status) (st : State) : State :=
  {| message := message st; status := v; wsRef := wsRef st;
     reconnectAttemptsRef := reconnectAttemptsRef st;
     reconnectTimeoutRef := reconnectTimeoutRef st;
     sockets := sockets st; timers := timers st;
     next_socket := next_socket st; next_timer := next_timer st |}.

Definition setMessage (m : Message) (st : State) : State :=
  {| message := Some m; status := status st; wsRef := wsRef st;
     reconnectAttemptsRef := reconnectAttemptsRef st;
     reconnectTimeoutRef := reconnectTimeoutRef st;
     sockets := sockets st; timers := timers st;
     next_socket := next_socket st; next_timer := next_timer st |}.

Definition set_wsRef (r : option nat) (st : State) : State :=
  {| message := message st; status := status st; wsRef := r;
     reconnectAttemptsRef := reconnectAttemptsRef st;
     reconnectTimeoutRef := reconnectTimeoutRef st;
     sockets := sockets st; timers := timers st;
     next_socket := next_socket st; next_timer := next_timer st |}.

Definition set_attempts (n : Z) (st : State) : State :=
  {| message := message st; status := status st; wsRef := wsRef st;
     reconnectAttemptsRef := n;
     reconnectTimeoutRef := reconnectTimeoutRef st;
     sockets := sockets st; timers := timers st;
     next_socket := next_socket st; next_timer := next_timer st |}.

Definition set_readyState (sock : nat) (r : ReadyState) (st : State) : State :=
  {| message := message st; status := status st; wsRef := wsRef st;
     reconnectAttemptsRef := reconnectAttemptsRef st;
     reconnectTimeoutRef := reconnectTimeoutRef st;
     sockets := <[sock := r]> (sockets st); timers := timers st;
     next_socket := next_socket st; next_timer := next_timer st |}.

(** [new WebSocket(url)]: a fresh socket in state [CONNECTING]. *)
Definition newWebSocket (st : State) : nat * State :=
  (next_socket st,
   {| message := message st; status := status st; wsRef := wsRef st;
      reconnectAttemptsRef := reconnectAttemptsRef st;
      reconnectTimeoutRef := reconnectTimeoutRef st;
      sockets := <[next_socket st := CONNECTING]> (sockets st);
      timers := timers st;
      next_socket := S (next_socket st); next_timer := next_timer st |}).

(** [reconnectTimeoutRef.current = window.setTimeout(...)]: arms a fresh
    timeout and stores its id in the ref. *)
Definition setTimeout_into_ref (st : State) : State :=
  {| message := message st; status := status st; wsRef := wsRef st;
     reconnectAttemptsRef := reconnectAttemptsRef st;
     reconnectTimeoutRef := Some (next_timer st);
     sockets := sockets st; timers := {[next_timer st]} ∪ timers st;
     next_socket := next_socket st; next_timer := S (next_timer st) |}.

(** [clearTimeout(id)]: disarms the timeout if it is still armed. *)
Definition clearTimeout (t : nat) (st : State) : State :=
  {| message := message st; status := status st; wsRef := wsRef st;
     reconnectAttemptsRef := reconnectAttemptsRef st;
     reconnectTimeoutRef := reconnectTimeoutRef st;
     sockets := sockets st; timers := timers st ∖ {[t]};
     next_socket := next_socket st; next_timer := next_timer st |}.

(** [ws.close()]: a socket that is connecting or open starts closing; the
    close event is delivered later.  Otherwise nothing happens. *)
Definition close (sock : nat) (st : State) : State :=
  match sockets st !! sock with
  | Some CONNECTING | Some OPEN => set_readyState sock CLOSING st
  | _ => st
  end.

Definition readyState (st : State) (sock : nat) : option ReadyState :=
  sockets st !! sock.

(** *** The handlers installed on every socket, and the two commands.
    All sockets the hook creates share the same refs, so a handler does
    not depend on which socket it was installed on. *)

Definition onopen (st : State) : State :=
  set_attempts 0 (setStatus connected st).

(** [try { setMessage(JSON.parse(event.data)) } catch { setMessage(event.data) }] *)
Definition onmessage (p : Platform) (data : string) (st : State) : State :=
  try_catch
    (bind (JSON_parse p data) (fun j => Ok (setMessage (Parsed j) st)))
    (fun _ => setMessage (Raw data) st).

Definition onerror (st : State) : State :=
  setStatus error st.

Definition onclose (o : Options) (st : State) : State :=
  let st1 := set_wsRef None (setStatus disconnected st) in
  if reconnect o && (reconnectAttemptsRef st1 <? maxReconnectAttempts o)%Z
  then setTimeout_into_ref (set_attempts (reconnectAttemptsRef st1 + 1) st1)
  else st1.

(** [wsRef.current?.readyState === WebSocket.OPEN] *)
Definition current_is_open (st : State) : bool :=
  match wsRef st with
  | Some sock => bool_decide (readyState st sock = Some OPEN)
  | None => false
  end.

Definition connect (p : Platform) (st : State) : State :=
  if current_is_open st then st
  else
    let st1 := setStatus connecting st in
    if url_accepted p then
      let '(sock, st2) := newWebSocket st1 in
      set_wsRef (Some sock) st2
    else setStatus error st1.

Definition disconnect (st : State) : State :=
  let st1 :=
    match reconnectTimeoutRef st with
    | Some t => if (t =? 0)%nat then st else clearTimeout t st
    | None => st
    end in
  let st2 :=
    match wsRef st1 with
    | Some sock => set_wsRef None (close sock st1)
    | None => st1
    end in
  setStatus disconnected st2.

(** *** What can happen to the hook: a call by its user (or by the mount
    and unmount effect), or an event of the browser. *)
Inductive Event : Type :=
| CallConnect
| CallDisconnect
| TimerFires (t : nat)
| SocketOpens (sock : nat)
| SocketMessage (sock : nat) (data : string)
| SocketError (sock : nat)
| SocketCloses (sock : nat).

Definition is_call (ev : Event) : bool :=
  match ev with
  | CallConnect | CallDisconnect => true
  | _ => false
  end.

Definition not_closed (st : State) (sock : nat) : bool :=
  match readyState st sock with
  | Some CONNECTING | Some OPEN | Some CLOSING => true
  | _ => false
  end.

(** One event.  [None]: the browser cannot deliver this event in this
    state (an unarmed timeout does not fire, only a connecting socket
    opens, only an open socket delivers messages, a closed socket is
    silent). *)
Definition step (o : Options) (p : Platform) (st : State) (ev : Event)
  : option State :=
  match ev with
  | CallConnect => Some (connect p st)
  | CallDisconnect => Some (disconnect st)
  | TimerFires t =>
      if bool_decide (t ∈ timers st)
      then Some (connect p (clearTimeout t st)) else None
  | SocketOpens sock =>
      if bool_decide (readyState st sock = Some CONNECTING)
      then Some (onopen (set_readyState sock OPEN st)) else None
  | SocketMessage sock data =>
      if bool_decide (readyState st sock = Some OPEN)
      then Some (onmessage p data st) else None
  | SocketError sock =>
      if not_closed st sock then Some (onerror st) else None
  | SocketCloses sock =>
      if not_closed st sock
      then Some (onclose o (set_readyState sock CLOSED st)) else None
  end.

Fixpoint run (o : Options) (p : Platform) (st : State) (evs : list Event)
  : option State :=
  match evs with
  | [] => Some st
  | ev :: rest =>
      match step o p st ev with
      | Some st' => run o p st' rest
      | None => None
      end
  end.

Definition reachable (o : Options) (p : Platform) (st : State) : Prop :=
  exists evs, run o p initial evs = Some st.


End WebSocketHook.

(** ** useApi.ts *)
Module Api.
Import Js.

(** [UseApiOptions] *)
Record Options : Type := mkOptions {
  baseUrl : string;
  headers : gmap string string
}.

(** [HeadersInit], the three shapes [requestOptions.headers] may have: a
    plain object, a [Headers] instance, or an array of name and value
    pairs. *)
Inductive HeadersInit : Type :=
| HeadersRecord (m : gmap string string)
| HeadersInstance (m : gmap string string)
| HeaderPairs (l : list (string * string)).

(** [RequestInit], the fields the hook uses; [None] is [undefined]. *)
Record RequestInit : Type := mkInit {
  init_method : option string;
  init_headers : option HeadersInit;
  init_body : option string
}.

Definition noInit : RequestInit :=
  {| init_method := None; init_headers := None; init_body := None |}.

(** [{ ...h }], the own enumerable properties an object spread copies: the
    entries of a plain object; nothing of a [Headers] instance, which keeps
    its entries in internal slots; of an array, its elements under their
    indices, here the pairs, which make the text [name,value] once they are
    used as header values. *)
Definition spread_headers (h : option HeadersInit) : gmap string string :=
  match h with
  | None => ∅
  | Some (HeadersRecord m) => m
  | Some (HeadersInstance _) => ∅
  | Some (HeaderPairs l) =>
      list_to_map (imap (fun i kv => (string_of_nat i, fst kv ++ "," ++ snd kv)) l)
  end.

(** The request [fetch] is called with. *)
Record Request : Type := mkRequest {
  req_url : string;
  req_method : option string;
  req_headers : gmap string string;
  req_body : option string
}.

(** The [Response] members the hook reads.  [json] is the settlement of
    [response.json()]. *)
Record Response : Type := mkResponse {
  status : nat;
  content_type : option string;
  json : Outcome Js.json
}.

(** [response.ok]: the status is in the range 200-299. *)
Definition ok (r : Response) : bool :=
  (200 <=? status r)%nat && (status r <=? 299)%nat.

(** The network: how [fetch] settles for a request. *)
Definition Network : Type := Request -> Outcome Response.

(** The [data], [error] and [loading] cells. *)
Record State : Type := mkState {
  data : Value;
  error : Value;
  loading : bool
}.

Definition initial : State :=
  {| data := null; error := null; loading := false |}.

Definition setData (v : Value) (st : State) : State :=
  {| data := v; error := error st; loading := loading st |}.
Definition setError (v : Value) (st : State) : State :=
  {| data := data st; error := v; loading := loading st |}.
Definition setLoading (b : bool) (st : State) : State :=
  {| data := data st; error := error st; loading := b |}.

(** The object literal an [ApiError] is written as. *)
Definition apiError (err code message : string) : Js.json :=
  JObj [("error", JStr err); ("code", JStr code); ("message", JStr message)].

(** [response.json().catch(() => fallback)] *)
Definition json_or (r : Response) (fallback : Js.json) : Js.json :=
  match json r with
  | Ok j => j
  | Throw _ => fallback
  end.

(** [response.headers.get('content-type')?.includes('application/json')];
    a missing header gives [undefined], which is falsy. *)
Definition isJsonContentType (r : Response) : bool :=
  match content_type r with
  | Some ct => str_includes "application/json" ct
  | None => false
  end.

Definition handleResponse (r : Response) : Outcome Value :=
  if negb (ok r) then
    Throw (VJson (json_or r
      (apiError "unknown_error" "ERR_UNKNOWN" ("HTTP " ++ string_of_nat (status r)))))
  else
    if isJsonContentType r then bind (json r) (fun j => Ok (VJson j))
    else Ok null.

(** [{ ...requestOptions, headers: { ...defaultHeaders, ...requestOptions.headers } }]:
    a later spread overrides an earlier one. *)
Definition fetchRequest (o : Options) (url : string) (ro : RequestInit) : Request :=
  {| req_url := baseUrl o ++ url;
     req_method := init_method ro;
     req_headers := spread_headers (init_headers ro) ∪ headers o;
     req_body := init_body ro |}.

(** An async function: the state it leaves and how its promise settles. *)
Definition fetchData (o : Options) (net : Network) (st : State)
    (url : string) (requestOptions : RequestInit) : State * Outcome Value :=
  let st1 := setError null (setLoading true st) in
  match bind (net (fetchRequest o url requestOptions)) handleResponse with
  | Ok result => (setLoading false (setData result st1), Ok result)
  | Throw err => (setLoading false (setError err st1), Ok null)
  end.

Definition jsonInit (method : string) (body : option string) : RequestInit :=
  {| init_method := Some method;
     init_headers := Some (HeadersRecord {[ "Content-Type" := "application/json" ]});
     init_body := body |}.

(** [post] and [put] serialise the body before they call [fetchData];
    [JSON.stringify] throws on a value it cannot serialise (a cycle, a
    BigInt) and yields [undefined] for [undefined]. *)
Definition post {Body : Type} (JSON_stringify : Body -> Outcome (option string))
    (o : Options) (net : Network) (st : State) (url : string) (body : Body)
  : State * Outcome Value :=
  match JSON_stringify body with
  | Ok text => fetchData o net st url (jsonInit "POST" text)
  | Throw e => (st, Throw e)
  end.

Definition put {Body : Type} (JSON_stringify : Body -> Outcome (option string))
    (o : Options) (net : Network) (st : State) (url : string) (body : Body)
  : State * Outcome Value :=
  match JSON_stringify body with
  | Ok text => fetchData o net st url (jsonInit "PUT" text)
  | Throw e => (st, Throw e)
  end.

Definition delRequest (o : Options) (url : string) : Request :=
  {| req_url := baseUrl o ++ url;
     req_method := Some "DELETE";
     req_headers := headers o;
     req_body := None |}.

(** The [try] block of [del]. *)
Definition delResponse (r : Response) : Outcome bool :=
  if negb (ok r) then
    Throw (VJson (json_or r (apiError "delete_failed" "ERR_DELETE" "Delete failed")))
  else Ok true.

Definition del (o : Options) (net : Network) (st : State) (url : string)
  : State * Outcome bool :=
  let st1 := setError null (setLoading true st) in
  match bind (net (delRequest o url)) delResponse with
  | Ok b => (setLoading false st1, Ok b)
  | Throw err => (setLoading false (setError err st1), Ok false)
  end.

Definition reset (st : State) : State :=
  setLoading false (setError null (setData null st)).

(** The response did not succeed, or no response arrived at all. *)
Definition failed (s : Outcome Response) : bool :=
  match s with
  | Ok r => negb (ok r)
  | Throw _ => true
  end.

(** The four verbs the hook wraps. *)
Inductive Verb : Type := GET | POST | PUT | DELETE.

(** The state a call with the given verb leaves.  [post] and [put] are
    given a body that is already serialised. *)
Definition state_after (v : Verb) (o : Options) (net : Network) (st : State)
    (url : string) (body : option string) : State :=
  match v with
  | GET => fst (fetchData o net st url noInit)
  | POST => fst (post Ok o net st url body)
  | PUT => fst (put Ok o net st url body)
  | DELETE => fst (del o net st url)
  end.

(** The [message] of a stored error mentions the status code. *)
Definition carries_status (e : Value) (code : nat) : bool :=
  match prop "message" e with
  | Some (JStr m) => str_includes (string_of_nat code) m
  | _ => false
  end.

End Api.

(** ** A page that mounts both [JobList] and [useWebSocket] *)
Module Page.
Import Js.

(** The two components share no state cell: [setJobs] is called by
    [fetchJobs] alone and the hook writes its own [message] cell. *)
Record View : Type := mkView {
  list_state : JobList.State;
  socket_state : WebSocketHook.State
}.

(** An update reaches the page on the push channel, as a frame handed to
    [onmessage], or on the poll channel, as the settlement of a fetch. *)
Inductive Update : Type :=
| PushDelta (frame : string)
| PollSnapshot (r : JobList.FetchResult).

Definition apply (p : WebSocketHook.Platform) (v : View) (u : Update) : View :=
  match u with
  | PushDelta frame =>
      {| list_state := list_state v;
         socket_state := WebSocketHook.onmessage p frame (socket_state v) |}
  | PollSnapshot r =>
      {| list_state := JobList.fetchJobs (list_state v) r;
         socket_state := socket_state v |}
  end.

Definition apply_all (p : WebSocketHook.Platform) (v : View) (us : list Update)
  : View :=
  fold_left (apply p) us v.

(** The job list of the last poll in [us] that succeeded, if any. *)
Fixpoint last_snapshot (us : list Update) : option (list JobList.Job) :=
  match us with
  | [] => None
  | u :: rest =>
      match last_snapshot rest with
      | Some js => Some js
      | None =>
          match u with
          | PollSnapshot r =>
              match JobList.fetched r with
              | Ok js => Some js
              | Throw _ => None
              end
          | PushDelta _ => None
          end
      end
  end.

Definition status_of (i : string) (v : View) : option string :=
  JobList.status_of i (list_state v).

Definition record_of (i : string) (v : View) : option JobList.Job :=
  JobList.find_job i (JobList.jobs (list_state v)).

End Page.

(** ** Concrete inputs the examples below run the model on *)
Module Samples.
Import Js.

Definition job (i st : string) (pr : option Z) : JobList.Job :=
  JobList.mkJob i None st pr "2024-05-01T10:00:00Z" None None None None.

Definition snapshot (js : list JobList.Job) : Page.Update :=
  Page.PollSnapshot (JobList.FetchResponse true (Ok (JobList.BareArray js))).

Definition page (js : list JobList.Job) (total : Z) : Page.Update :=
  Page.PollSnapshot (JobList.FetchResponse true
    (Ok (JobList.Paginated (JobList.mkPage js total 1 1 true)))).

(** A parser that knows the three JSON literals: enough to run the hook on
    frames that are not JSON. *)
Definition parseLiteral (text : string) : Outcome json :=
  if String.eqb text "null" then Ok JNull
  else if String.eqb text "true" then Ok (JBool true)
  else if String.eqb text "false" then Ok (JBool false)
  else Throw (VError "SyntaxError" "Unexpected token").

Definition platform : WebSocketHook.Platform :=
  {| WebSocketHook.JSON_parse := parseLiteral;
     WebSocketHook.url_accepted := true |}.

(** The hook after [connect()] on mount. *)
Definition connectingState : WebSocketHook.State :=
  WebSocketHook.connect platform WebSocketHook.initial.

(** ... and after its socket has opened. *)
Definition openState : WebSocketHook.State :=
  WebSocketHook.onopen
    (WebSocketHook.set_readyState 0 WebSocketHook.OPEN connectingState).

Definition viewOf (js : list JobList.Job) : Page.View :=
  {| Page.list_state :=
       {| JobList.jobs := js; JobList.loading := false;
          JobList.error_message := None |};
     Page.socket_state := openState |}.

Definition apiOptions : Api.Options :=
  {| Api.baseUrl := "/api"; Api.headers := ∅ |}.

(** A server that answers every request with status 500 and a body that is
    not JSON. *)
Definition brokenResponse : Api.Response :=
  {| Api.status := 500;
     Api.content_type := Some "text/html";
     Api.json := Throw (VError "SyntaxError" "Unexpected token <") |}.

Definition brokenServer : Api.Network := fun _ => Ok brokenResponse.

(** A server that answers 404 with a structured error body. *)
Definition notFoundBody : json :=
  JObj [("error", JStr "not_found"); ("code", JStr "ERR_NOT_FOUND");
        ("message", JStr "Job not found")].

Definition notFoundServer : Api.Network :=
  fun _ => Ok {| Api.status := 404;
                 Api.content_type := Some "application/json";
                 Api.json := Ok notFoundBody |}.

(** No connection: [fetch] rejects. *)
Definition offline : Api.Network :=
  fun _ => Throw (VError "TypeError" "Failed to fetch").

(** A server that answers 204 without a body. *)
Definition noContentResponse : Api.Response :=
  {| Api.status := 204;
     Api.content_type := None;
     Api.json := Throw (VError "SyntaxError" "Unexpected end of JSON input") |}.

Definition noContentServer : Api.Network := fun _ => Ok noContentResponse.

(** A serialiser for bodies that are text already; the text [cycle] stands
    for a value [JSON.stringify] cannot serialise. *)
Definition stringifyText (body : string) : Outcome (option string) :=
  if String.eqb body "cycle"
  then Throw (VError "TypeError" "Converting circular structure to JSON")
  else Ok (Some body).

(** Mount, two failed connection attempts with their retries, and a third
    attempt under way. *)
Definition retryTrace : list WebSocketHook.Event :=
  [WebSocketHook.CallConnect;
   WebSocketHook.SocketError 0; WebSocketHook.SocketCloses 0;
   WebSocketHook.TimerFires 1;
   WebSocketHook.SocketCloses 1;
   WebSocketHook.TimerFires 2].

Definition retryState : WebSocketHook.State :=
  default WebSocketHook.initial
    (WebSocketHook.run WebSocketHook.defaultOptions platform
       WebSocketHook.initial retryTrace).

(** Mount, open, [disconnect()], and then only browser events: the close
    event of the socket that was closed, and the timeout it armed. *)
Definition disconnectTrace : list WebSocketHook.Event :=
  [WebSocketHook.CallConnect; WebSocketHook.SocketOpens 0;
   WebSocketHook.CallDisconnect].

Definition afterDisconnectTrace : list WebSocketHook.Event :=
  [WebSocketHook.SocketCloses 0; WebSocketHook.TimerFires 1].

End Samples.

(** ** useTheme.ts: the cookie helpers *)
Module Cookies.
Import Js.

(** [String.prototype.split] with a separator that is not empty: the text
    is cut at each occurrence of the separator, found from left to right
    without overlap.  [skip] counts the characters of a separator that are
    still to be passed over, [cur] is the part read so far. *)
Fixpoint split_go (sep : string) (skip : nat) (cur : string) (s : string)
  : list string :=
  match s with
  | EmptyString => [cur]
  | String c rest =>
      match skip with
      | S k => split_go sep k cur rest
      | O =>
          if String.prefix sep s
          then cur :: split_go sep (String.length sep - 1) EmptyString rest
          else split_go sep 0 (cur ++ String c EmptyString) rest
      end
  end.

Definition split (sep s : string) : list string := split_go sep 0 EmptyString s.

Definition DARK_MODE_COOKIE : string := "lmsilo-theme".
Definition COOKIE_MAX_AGE : N := 31536000.

(** [getCookie]; the first argument is [document.cookie], [None] when there
    is no [document].  [parts.pop()?.split(';').shift()] is the last part up
    to its first semicolon. *)
Definition getCookie (cookie : option string) (name : string) : option string :=
  match cookie with
  | None => None
  | Some c =>
      let value := "; " ++ c in
      let parts := split ("; " ++ name ++ "=") value in
      if (length parts =? 2)%nat then
        match last parts with
        | Some p => head (split ";" p)
        | None => None
        end
      else None
  end.

(** The text [setCookie] assigns to [document.cookie]. *)
Definition setCookie_text (name value : string) : string :=
  name ++ "=" ++ value ++ "; path=/; max-age="
       ++ NilEmpty.string_of_uint (N.to_uint COOKIE_MAX_AGE)
       ++ "; SameSite=Lax".

(** *** The browser's side of [document.cookie]
    The named cookies visible to the page, in the order the getter lists
    them.  They are taken to be cookies of the page's own host with the
    path [/], which is what [setCookie] writes, so that the name alone tells
    two cookies apart. *)
Definition Jar : Type := list (string * string).

Definition entry (kv : string * string) : string := fst kv ++ "=" ++ snd kv.

(** Reading [document.cookie]: the pairs joined by a semicolon and a space. *)
Definition cookie_string (jar : Jar) : string :=
  String.concat "; " (map entry jar).

(** The text before the first [=] and the text after it. *)
Fixpoint cut_at_equals (s : string) : option (string * string) :=
  match s with
  | EmptyString => None
  | String c rest =>
      if Ascii.eqb c "="%char then Some (EmptyString, rest)
      else match cut_at_equals rest with
           | Some (k, v) => Some (String c k, v)
           | None => None
           end
  end.

Fixpoint upsert (name value : string) (jar : Jar) : Jar :=
  match jar with
  | [] => [(name, value)]
  | (k, v) :: rest =>
      if String.eqb k name then (name, value) :: rest
      else (k, v) :: upsert name value rest
  end.

(** Blanks: the space and the tab. *)
Definition is_blank (c : ascii) : bool :=
  Ascii.eqb c " "%char || Ascii.eqb c "009"%char.

Fixpoint trim_left (s : string) : string :=
  match s with
  | EmptyString => EmptyString
  | String c rest => if is_blank c then trim_left rest else s
  end.

Fixpoint trim_right (s : string) : string :=
  match s with
  | EmptyString => EmptyString
  | String c rest =>
      match trim_right rest with
      | EmptyString => if is_blank c then EmptyString else String c EmptyString
      | kept => String c kept
      end
  end.

(** [s] without the blanks at its two ends. *)
Definition trim (s : string) : string := trim_right (trim_left s).

(** Every character is a printable character of ASCII. *)
Fixpoint printable (s : string) : bool :=
  match s with
  | EmptyString => true
  | String c rest =>
      (32 <=? nat_of_ascii c)%nat && (nat_of_ascii c <=? 126)%nat && printable rest
  end.

(** The assignments this model answers for: a cookie with a name, made of
    printable characters of ASCII, of at most 4096 characters, whose name
    does not start with two underscores (names such as [__Secure-] and
    [__Host-] have rules of their own). *)
Definition covered (name value : string) : bool :=
  negb (String.eqb name EmptyString)
  && printable name && printable value
  && negb (String.prefix "__" name)
  && (String.length name + String.length value <=? 4096)%nat.

(** Assigning to [document.cookie] on a page that may use cookies.  The
    pair before the first semicolon is cut at its first [=]; name and value
    lose the blanks at their ends; the cookie takes the place of the cookie
    of that name, or comes after all others when there is none.  The
    attributes [setCookie] writes (path [/], a positive [max-age],
    [SameSite=Lax]) keep the cookie visible to the page.  [None]: the
    assignment is not one the model answers for (see [covered]; a pair
    without [=] is a cookie without a name). *)
Definition assign_cookie (jar : Jar) (text : string) : option Jar :=
  match head (split ";" text) with
  | Some first =>
      match cut_at_equals first with
      | Some (k, v) =>
          if covered (trim k) (trim v)
          then Some (upsert (trim k) (trim v) jar)
          else None
      | None => None
      end
  | None => None
  end.

(** [setCookie] on a page with a [document]. *)
Definition setCookie (jar : Jar) (name value : string) : option Jar :=
  assign_cookie jar (setCookie_text name value).

(** No character of [s] is [c]. *)
Fixpoint lacks (c : ascii) (s : string) : bool :=
  match s with
  | EmptyString => true
  | String d rest => negb (Ascii.eqb d c) && lacks c rest
  end.

(** Names without [;] and [=], values without [;], as cookies have them. *)
Definition well_formed (jar : Jar) : Prop :=
  Forall (fun kv => lacks ";" (fst kv) = true
                    /\ lacks "=" (fst kv) = true
                    /\ lacks ";" (snd kv) = true) jar.

(** The value stored under a name: the first pair with that name. *)
Fixpoint lookup_cookie (name : string) (jar : Jar) : option string :=
  match jar with
  | [] => None
  | (k, v) :: rest => if String.eqb k name then Some v else lookup_cookie name rest
  end.

(** How many pairs carry the name. *)
Fixpoint occurrences (name : string) (jar : Jar) : nat :=
  match jar with
  | [] => 0
  | (k, _) :: rest =>
      (if String.eqb k name then 1 else 0) + occurrences name rest
  end.

(** The separator [getCookie] splits at. *)
Definition sep_of (name : string) : string := "; " ++ name ++ "=".

(** The text [getCookie] splits, as the jar contributes to it: every pair
    preceded by a semicolon and a space. *)
Fixpoint jar_text (jar : Jar) : string :=
  match jar with
  | [] => EmptyString
  | kv :: rest => "; " ++ entry kv ++ jar_text rest
  end.

(** The parts the split by ["; name="] cuts that text into. *)
Fixpoint jar_parts (name cur : string) (jar : Jar) : list string :=
  match jar with
  | [] => [cur]
  | (k, v) :: rest =>
      if String.eqb k name then cur :: jar_parts name v rest
      else jar_parts name (cur ++ "; " ++ entry (k, v)) rest
  end.

End Cookies.

(** ** useTheme.ts: the theme hook *)
Module Theme.
Import Js Cookies.

(** What the hook touches of the page: the cookies, the class list of the
    root element, and whether the media query [(prefers-color-scheme: dark)]
    matches. *)
Record Document : Type := mkDocument {
  cookies : Jar;
  classList : list string;
  prefersDark : bool
}.

Definition document_cookie (doc : Document) : option string :=
  Some (cookie_string (cookies doc)).

(** [classList.add]: a class list holds a token once. *)
Definition classList_add (c : string) (l : list string) : list string :=
  if bool_decide (c ∈ l) then l else l ++ [c].

(** [classList.remove] *)
Definition classList_remove (c : string) (l : list string) : list string :=
  filter (fun d => d <> c) l.

(** The first effect: the argument of the [setIsDark] call it makes, if it
    makes one.  A cookie value is used when it is truthy, that is, not
    empty. *)
Definition init_effect (doc : Document) : option bool :=
  match getCookie (document_cookie doc) DARK_MODE_COOKIE with
  | Some (String c rest) => Some (String.eqb (String c rest) "dark")
  | _ => if prefersDark doc then Some true else None
  end.

(** The second effect, run with the current [isDark].  The cookie it writes
    is one the store model answers for, so the first branch of the [match]
    is the one taken. *)
Definition apply_effect (isDark : bool) (doc : Document) : Document :=
  let classes :=
    if isDark then classList_add "dark" (classList doc)
    else classList_remove "dark" (classList doc) in
  {| cookies :=
       match setCookie (cookies doc) DARK_MODE_COOKIE
                       (if isDark then "dark" else "light") with
       | Some jar => jar
       | None => cookies doc
       end;
     classList := filter (fun c => String.prefix "theme-" c = false) classes;
     prefersDark := prefersDark doc |}.

(** Mounting the hook.  [isDark] starts as [false]; after the first render
    both effects run in the order they are written, the second one still
    with [false]; if the first one asked for [true], the component renders
    again and the second effect runs with [true].  A [setIsDark(false)]
    changes nothing and causes no further render. *)
Definition mount (doc : Document) : bool * Document :=
  let request := init_effect doc in
  let doc1 := apply_effect false doc in
  match request with
  | Some true => (true, apply_effect true doc1)
  | _ => (false, doc1)
  end.

(** [toggle], followed by the render and the effect it causes. *)
Definition toggle (st : bool * Document) : bool * Document :=
  (negb (fst st), apply_effect (negb (fst st)) (snd st)).

(** The page has at most one theme cookie and well-formed cookies. *)
Definition tidy (doc : Document) : Prop :=
  well_formed (cookies doc) /\ occurrences DARK_MODE_COOKIE (cookies doc) <= 1.

End Theme.

(** ** JobQueue.tsx: the queue item *)
Module QueueItem.
Import Js JobQueue.

(** The statuses [QueueItem] shows as being processed. *)
Definition processingStatuses : list string :=
  ["processing"; "extracting"; "transcribing"; "detecting"; "translating"].

Definition isProcessing (status : string) : bool :=
  includes processingStatuses (toLowerCase status).

(** [s.replace('_', ' ')]: a string pattern replaces its first occurrence
    only. *)
Fixpoint replace_underscore (s : string) : string :=
  match s with
  | EmptyString => EmptyString
  | String c rest =>
      if Ascii.eqb c "_"%char then String " "%char rest
      else String c (replace_underscore rest)
  end.

(** [status.charAt(0).toUpperCase() + status.slice(1).replace('_', ' ')].
    What [toUpperCase] makes of a one-character string is the platform's
    business (it may be more than one character) and is taken as a
    parameter; for the empty string, [charAt(0)] is empty and stays so. *)
Definition formatStatus (toUpperCase : ascii -> string) (status : string)
  : string :=
  match status with
  | EmptyString => EmptyString
  | String c rest => toUpperCase c ++ replace_underscore rest
  end.

End QueueItem.

(** ** useWebSocket.ts: [send] *)
Module WebSocketSend.
Import Js WebSocketHook.

(** What [send] hands to which socket, if it sends at all.  Text goes out
    as it is, any other value through [JSON.stringify]. *)
Definition send {A : Type} (JSON_stringify : A -> string) (st : State)
    (data : string + A) : option (nat * string) :=
  if current_is_open st then
    match wsRef st with
    | Some sock =>
        Some (sock, match data with
                    | inl text => text
                    | inr a => JSON_stringify a
                    end)
    | None => None
    end
  else None.

(** How many of the events are timeouts that fire. *)
Fixpoint count_fires (evs : list Event) : nat :=
  match evs with
  | [] => 0
  | TimerFires _ :: rest => S (count_fires rest)
  | _ :: rest => count_fires rest
  end.

Definition is_open_event (ev : Event) : bool :=
  match ev with
  | SocketOpens _ => true
  | _ => false
  end.

End WebSocketSend.

(** ** useApi.ts: calls that overlap
    An async call runs up to its first [await] when it is issued and
    resumes when the awaited promises have settled. *)
Module ApiCalls.
Import Js Api.

(** [setLoading(true); setError(null)], run when the call is issued. *)
Definition begin_call (st : State) : State :=
  setError null (setLoading true st).

(** The rest of [fetchData], run when [fetch] has settled with [answer]. *)
Definition settle_fetch (answer : Outcome Response) (st : State) : State :=
  match bind answer handleResponse with
  | Ok result => setLoading false (setData result st)
  | Throw err => setLoading false (setError err st)
  end.

(** The rest of [del]. *)
Definition settle_del (answer : Outcome Response) (st : State) : State :=
  match bind answer delResponse with
  | Ok _ => setLoading false st
  | Throw err => setLoading false (setError err st)
  end.

End ApiCalls.

(** ** ErrorBoundary.tsx (the file [unnamed/part_000]) *)
Module ErrorBoundary.
Import Js.

(** A [ReactNode], as far as its truthiness goes. *)
Inductive Node : Type :=
| Null
| Text (s : string)
| Element (name : string).

Definition truthy (n : Node) : bool :=
  match n with
  | Null => false
  | Text EmptyString => false
  | _ => true
  end.

Record Props : Type := mkProps {
  children : Node;
  fallback : option Node
}.

(** An [Error] object. *)
Record ErrorObject : Type := mkError {
  name : string;
  message : string
}.

Record State : Type := mkState {
  hasError : bool;
  error : option ErrorObject
}.

(** The constructor's state. *)
Definition initial : State := {| hasError := false; error := None |}.

Definition getDerivedStateFromError (e : ErrorObject) : State :=
  {| hasError := true; error := Some e |}.

(** [this.state.error?.message || 'An unexpected error occurred']: an empty
    message is falsy. *)
Definition shownMessage (st : State) : string :=
  match error st with
  | Some e =>
      match message e with
      | EmptyString => "An unexpected error occurred"
      | m => m
      end
  | None => "An unexpected error occurred"
  end.

(** What [render] returns. *)
Inductive Rendered : Type :=
| ShowChildren (n : Node)
| ShowFallback (n : Node)
| ShowDefault (message : string).

Definition render (props : Props) (st : State) : Rendered :=
  if hasError st then
    match fallback props with
    | Some f => if truthy f then ShowFallback f else ShowDefault (shownMessage st)
    | None => ShowDefault (shownMessage st)
    end
  else ShowChildren (children props).

(** What can happen to a mounted boundary: a child throws while the
    children are rendered, or the "Try again" button of the default error
    view is clicked. *)
Inductive Event : Type :=
| ChildThrows (e : ErrorObject)
| ClickTryAgain.

Definition step (props : Props) (st : State) (ev : Event) : option State :=
  match ev, render props st with
  | ChildThrows e, ShowChildren _ => Some (getDerivedStateFromError e)
  | ClickTryAgain, ShowDefault _ => Some {| hasError := false; error := None |}
  | _, _ => None
  end.

Fixpoint run (props : Props) (st : State) (evs : list Event) : option State :=
  match evs with
  | [] => Some st
  | ev :: rest =>
      match step props st ev with
      | Some st' => run props st' rest
      | None => None
      end
  end.

End ErrorBoundary.

(** ** portal/src/App.tsx: the theme of the portal *)
Module Portal.

(** The [isDark] cell, the class [dark] of the root element, and the item
    [lmsilo-theme] of [localStorage] ([None]: no such item). *)
Record State : Type := mkState {
  isDark : bool;
  darkClass : bool;
  stored : option string
}.

(** [stored === 'dark' || (!stored && true)] *)
Definition prefersDark (item : option string) : bool :=
  match item with
  | Some s => String.eqb s "dark" || String.eqb s ""
  | None => true
  end.

(** The page as it loads over a given storage: [useState(true)], then the
    effect. *)
Definition load (item : option string) : State :=
  {| isDark := prefersDark item;
     darkClass := prefersDark item;
     stored := item |}.

Definition toggleTheme (st : State) : State :=
  let newIsDark := negb (isDark st) in
  {| isDark := newIsDark;
     darkClass := newIsDark;
     stored := Some (if newIsDark then "dark" else "light") |}.

End Portal.

(** ** Concrete inputs for the examples of the later sections *)
Module MoreSamples.
Import Js.

Definition jar : Cookies.Jar :=
  [("session", "abc"); ("lmsilo-theme", "dark"); ("lang", "en=GB")].

Definition lightJar : Cookies.Jar := [("session", "abc")].

(** A page with a light theme cookie on a system that prefers dark. *)
Definition page : Theme.Document :=
  {| Theme.cookies := [("lmsilo-theme", "light"); ("session", "abc")];
     Theme.classList := ["theme-oatmeal"; "app"];
     Theme.prefersDark := true |}.

(** The socket hook with at most one retry, after the mount and the failure
    of the first socket. *)
Definition oneRetry : WebSocketHook.Options :=
  {| WebSocketHook.reconnect := true;
     WebSocketHook.reconnectInterval := 3000;
     WebSocketHook.maxReconnectAttempts := 1 |}.

Definition retryingTrace : list WebSocketHook.Event :=
  [WebSocketHook.CallConnect; WebSocketHook.SocketCloses 0;
   WebSocketHook.TimerFires 1].

Definition retryingState : WebSocketHook.State :=
  default WebSocketHook.initial
    (WebSocketHook.run oneRetry Samples.platform WebSocketHook.initial retryingTrace).

(** [toUpperCase] on a one-character string, for the characters of ASCII;
    the examples apply it to such characters only. *)
Definition upperAscii (c : ascii) : string :=
  let n := nat_of_ascii c in
  String (if (97 <=? n)%nat && (n <=? 122)%nat then ascii_of_nat (n - 32) else c)
         EmptyString.


(** Options of the request hook with two default headers. *)
Definition apiWithHeaders : Api.Options :=
  {| Api.baseUrl := "/api";
     Api.headers := {[ "Accept" := "text/plain"; "X-Token" := "t0k" ]} |}.

(** A call that asks for JSON, its headers given as a plain object and as a
    [Headers] instance. *)
Definition acceptJson : gmap string string := {[ "Accept" := "application/json" ]}.

Definition initWithRecord : Api.RequestInit :=
  {| Api.init_method := None;
     Api.init_headers := Some (Api.HeadersRecord acceptJson);
     Api.init_body := None |}.

Definition initWithInstance : Api.RequestInit :=
  {| Api.init_method := None;
     Api.init_headers := Some (Api.HeadersInstance acceptJson);
     Api.init_body := None |}.

Definition okResponse (j : json) : Api.Response :=
  {| Api.status := 200; Api.content_type := Some "application/json";
     Api.json := Ok j |}.

Definition boundaryWithFallback : ErrorBoundary.Props :=
  {| ErrorBoundary.children := ErrorBoundary.Element "JobList";
     ErrorBoundary.fallback := Some (ErrorBoundary.Text "Something went wrong") |}.

Definition boundaryPlain : ErrorBoundary.Props :=
  {| ErrorBoundary.children := ErrorBoundary.Element "JobList";
     ErrorBoundary.fallback := None |}.

Definition renderError : ErrorBoundary.ErrorObject :=
  {| ErrorBoundary.name := "TypeError";
     ErrorBoundary.message := "jobs.map is not a function" |}.

End MoreSamples.

(** * Theorems *)

(** ** Status classification *)
Module StatusProps.
Import Js JobQueue.





Lemma knownWords_lower (k : string) : k ∈ knownWords -> toLowerCase k = k.
Proof.
  unfold knownWords, completedWords, failedWords, processingWords; simpl.
  rewrite !elem_of_cons, elem_of_nil.
  intros H; repeat (destruct H as [-> | H]; [reflexivity|]); destruct H.
Qed.







Example getStatusConfig_examples :
  getStatusConfig "DONE" = completedConfig
  /\ getStatusConfig "Error" = failedConfig
  /\ getStatusConfig "Diarizing" = processingConfig
  /\ getStatusConfig "queued" = defaultConfig
  /\ getStatusConfig "in_progress" = defaultConfig
  /\ getStatusConfig "" = defaultConfig.
Proof. repeat split. Qed.

Example badgeConfig_inherited :
  StatusBadge.badgeConfig "toString" = StatusBadge.inheritedMember
  /\ StatusBadge.badgeConfig "__proto__" = StatusBadge.inheritedMember
  /\ StatusBadge.badgeConfig "tostring"
     = StatusBadge.mkBadge "#f3f4f6" "#6b7280" "tostring".
Proof. repeat split. Qed.

End StatusProps.

(** ** The job list under polls and push frames *)
Module JobListProps.
Import Js JobList.

Lemma fetchJobs_ok (st : State) (r : FetchResult) (js : list Job) :
  fetched r = Ok js ->
  fetchJobs st r = {| jobs := js; loading := false; error_message := None |}.
Proof. unfold fetchJobs; intros ->; reflexivity. Qed.

Lemma fetchJobs_throw (st : State) (r : FetchResult) (e : Value) :
  fetched r = Throw e ->
  fetchJobs st r = {| jobs := jobs st; loading := false;
                      error_message := Some (message_of e) |}.
Proof. unfold fetchJobs; intros ->; reflexivity. Qed.

(** Both shapes of the poll response are accepted. *)
Lemma fetched_shapes (js : list Job) (t pg sz : Z) (more : bool) :
  fetched (FetchResponse true (Ok (BareArray js))) = Ok js
  /\ fetched (FetchResponse true (Ok (Paginated (mkPage js t pg sz more)))) = Ok js.
Proof. split; reflexivity. Qed.

Lemma apply_jobs (p : WebSocketHook.Platform) (v : Page.View) (u : Page.Update) :
  jobs (Page.list_state (Page.apply p v u)) =
  default (jobs (Page.list_state v)) (Page.last_snapshot [u]).
Proof.
  destruct u as [frame | r]; simpl; [reflexivity|].
  unfold fetchJobs; destruct (fetched r); reflexivity.
Qed.

Lemma last_snapshot_app (us ws : list Page.Update) :
  Page.last_snapshot (us ++ ws) =
  match Page.last_snapshot ws with
  | Some js => Some js
  | None => Page.last_snapshot us
  end.
Proof.
  induction us as [|u us IH]; simpl.
  - destruct (Page.last_snapshot ws); reflexivity.
  - rewrite IH. destruct (Page.last_snapshot ws); reflexivity.
Qed.

(** Last write wins: after any sequence of updates the list is the one of
    the last poll that succeeded. *)
Lemma apply_all_jobs (p : WebSocketHook.Platform) (us : list Page.Update) :
  forall v : Page.View,
    jobs (Page.list_state (Page.apply_all p v us)) =
    default (jobs (Page.list_state v)) (Page.last_snapshot us).
Proof.
  unfold Page.apply_all.
  induction us as [|u us IH]; intros v; simpl; [reflexivity|].
  rewrite IH, apply_jobs; simpl.
  destruct (Page.last_snapshot us) as [js|]; simpl; reflexivity.
Qed.

(** C1 (as stated, refuted).  A job whose status is the terminal
    [completed] is shown as [processing] again after a poll whose snapshot
    reports it so. *)
Lemma terminal_status_overwritten_by_poll :
  Page.status_of "J1" (Samples.viewOf [Samples.job "J1" "completed" None])
    = Some "completed"
  /\ is_terminal "completed" = true
  /\ Page.status_of "J1"
       (Page.apply Samples.platform
          (Samples.viewOf [Samples.job "J1" "completed" None])
          (Samples.snapshot [Samples.job "J1" "processing" (Some 40%Z)]))
     = Some "processing".
Proof. repeat split. Qed.

(** C1 (amended).  A push frame never changes the status the list holds for
    a job id, and neither does a poll that fails; a poll that succeeds
    replaces the list, so that the status is then the one its snapshot
    reports for the id, terminal or not.  After any sequence of updates the
    status is the one reported by the last poll that succeeded, and the
    previous one if none did. *)
Theorem status_follows_last_snapshot
    (p : WebSocketHook.Platform) (v : Page.View) (i : string) :
  (forall frame,
      Page.status_of i (Page.apply p v (Page.PushDelta frame)) = Page.status_of i v)
  /\ (forall r e, fetched r = Throw e ->
      Page.status_of i (Page.apply p v (Page.PollSnapshot r)) = Page.status_of i v)
  /\ (forall r js, fetched r = Ok js ->
      Page.status_of i (Page.apply p v (Page.PollSnapshot r))
      = status <$> find_job i js)
  /\ (forall us,
      Page.status_of i (Page.apply_all p v us)
      = match Page.last_snapshot us with
        | Some js => status <$> find_job i js
        | None => Page.status_of i v
        end).
Proof.
  repeat split.
  - intros r e H. unfold Page.status_of, status_of; simpl.
    now rewrite (fetchJobs_throw _ _ _ H).
  - intros r js H. unfold Page.status_of, status_of; simpl.
    now rewrite (fetchJobs_ok _ _ _ H).
  - intros us. unfold Page.status_of, status_of.
    rewrite apply_all_jobs.
    destruct (Page.last_snapshot us); reflexivity.
Qed.

Lemma status_follows_last_snapshot_witness :
  Page.status_of "J1"
    (Page.apply Samples.platform
       (Samples.viewOf [Samples.job "J1" "completed" None])
       (Page.PollSnapshot (FetchResponse false (Ok (BareArray [])))))
  = Some "completed"
  /\ Page.status_of "J1"
       (Page.apply Samples.platform
          (Samples.viewOf [Samples.job "J1" "completed" None])
          (Samples.snapshot [Samples.job "J1" "failed" None]))
     = Some "failed".
Proof.
  pose proof (status_follows_last_snapshot Samples.platform
                (Samples.viewOf [Samples.job "J1" "completed" None]) "J1")
    as (_ & Hfail & Hok & _).
  split.
  - exact (Hfail (FetchResponse false (Ok (BareArray [])))
                 (VError "Error" "Failed to fetch jobs") eq_refl).
  - exact (Hok (FetchResponse true (Ok (BareArray [Samples.job "J1" "failed" None])))
               [Samples.job "J1" "failed" None] eq_refl).
Defined.

(** Scenario A of the specification: a push frame about J1, then a poll that
    reports J1 completed.  The list shows [completed]. *)
Example scenario_push_then_poll :
  Page.status_of "J1"
    (Page.apply_all Samples.platform (Samples.viewOf [])
       [Page.PushDelta "{id:J1,status:processing,progress:40}";
        Samples.snapshot [Samples.job "J1" "completed" None]])
  = Some "completed".
Proof. reflexivity. Qed.

(** C2 (as stated, refuted).  Two snapshots about J1, processed in the two
    possible orders, leave two different records. *)
Lemma final_record_depends_on_arrival_order :
  Permutation
    [Samples.snapshot [Samples.job "J1" "processing" (Some 40%Z)];
     Samples.snapshot [Samples.job "J1" "completed" (Some 100%Z)]]
    [Samples.snapshot [Samples.job "J1" "completed" (Some 100%Z)];
     Samples.snapshot [Samples.job "J1" "processing" (Some 40%Z)]]
  /\ Page.record_of "J1"
       (Page.apply_all Samples.platform (Samples.viewOf [])
          [Samples.snapshot [Samples.job "J1" "processing" (Some 40%Z)];
           Samples.snapshot [Samples.job "J1" "completed" (Some 100%Z)]])
     <> Page.record_of "J1"
          (Page.apply_all Samples.platform (Samples.viewOf [])
             [Samples.snapshot [Samples.job "J1" "completed" (Some 100%Z)];
              Samples.snapshot [Samples.job "J1" "processing" (Some 40%Z)]]).
Proof.
  split; [apply perm_swap | discriminate].
Qed.

(** C2 (amended).  The record the list holds for a job id after a sequence of
    updates is the one in the snapshot of the last poll that succeeded (the
    previous record if none did): the last arrival wins.  Two arrival orders
    of the same updates give the same record when they end in the same
    successful snapshot. *)
Theorem final_record_is_last_snapshot
    (p : WebSocketHook.Platform) (v : Page.View) (i : string)
    (us : list Page.Update) :
  Page.record_of i (Page.apply_all p v us)
  = match Page.last_snapshot us with
    | Some js => find_job i js
    | None => Page.record_of i v
    end
  /\ (forall us', Permutation us us' ->
        Page.last_snapshot us = Page.last_snapshot us' ->
        Page.record_of i (Page.apply_all p v us)
        = Page.record_of i (Page.apply_all p v us')).
Proof.
  unfold Page.record_of; split.
  - rewrite apply_all_jobs. destruct (Page.last_snapshot us); reflexivity.
  - intros us' _ Hlast. now rewrite !apply_all_jobs, Hlast.
Qed.

Lemma final_record_is_last_snapshot_witness :
  Page.record_of "J1"
    (Page.apply_all Samples.platform (Samples.viewOf [])
       [Samples.snapshot [Samples.job "J1" "processing" (Some 40%Z)];
        Page.PushDelta "ping";
        Samples.snapshot [Samples.job "J1" "completed" (Some 100%Z)]])
  = Page.record_of "J1"
      (Page.apply_all Samples.platform (Samples.viewOf [])
         [Page.PushDelta "ping";
          Samples.snapshot [Samples.job "J1" "processing" (Some 40%Z)];
          Samples.snapshot [Samples.job "J1" "completed" (Some 100%Z)]]).
Proof.
  apply (proj2 (final_record_is_last_snapshot Samples.platform
           (Samples.viewOf []) "J1"
           [Samples.snapshot [Samples.job "J1" "processing" (Some 40%Z)];
            Page.PushDelta "ping";
            Samples.snapshot [Samples.job "J1" "completed" (Some 100%Z)]])
         [Page.PushDelta "ping";
          Samples.snapshot [Samples.job "J1" "processing" (Some 40%Z)];
          Samples.snapshot [Samples.job "J1" "completed" (Some 100%Z)]]).
  - apply perm_swap.
  - reflexivity.
Defined.

(** C3 (as stated, refuted).  The list holds J1 and J2; a page of poll
    results carries J1 alone; afterwards J2 is gone from the list, although
    nothing deleted it. *)
Lemma omitted_job_dropped_by_poll :
  Page.record_of "J2"
    (Samples.viewOf [Samples.job "J1" "queued" None;
                     Samples.job "J2" "processing" (Some 10%Z)])
    = Some (Samples.job "J2" "processing" (Some 10%Z))
  /\ find_job "J2" [Samples.job "J1" "queued" None] = None
  /\ Page.record_of "J2"
       (Page.apply Samples.platform
          (Samples.viewOf [Samples.job "J1" "queued" None;
                           Samples.job "J2" "processing" (Some 10%Z)])
          (Samples.page [Samples.job "J1" "queued" None] 2))
     = None.
Proof. repeat split. Qed.

(** C3 (amended).  A poll that succeeds makes the job list exactly the list
    of its snapshot: a job the snapshot omits is not in the list afterwards.
    A poll that fails leaves every job in the list as it was. *)
Theorem poll_replaces_job_list (st : State) (r : FetchResult) (i : string) :
  (forall js, fetched r = Ok js ->
      jobs (fetchJobs st r) = js
      /\ (find_job i js = None -> find_job i (jobs (fetchJobs st r)) = None))
  /\ (forall e, fetched r = Throw e ->
      find_job i (jobs (fetchJobs st r)) = find_job i (jobs st)).
Proof.
  split.
  - intros js H. rewrite (fetchJobs_ok _ _ _ H); simpl. auto.
  - intros e H. now rewrite (fetchJobs_throw _ _ _ H).
Qed.

Lemma poll_replaces_job_list_witness :
  find_job "J2"
    (jobs (fetchJobs
             {| jobs := [Samples.job "J2" "processing" None];
                loading := false; error_message := None |}
             (FetchResponse true (Ok (BareArray [Samples.job "J1" "queued" None])))))
  = None
  /\ find_job "J2"
       (jobs (fetchJobs
                {| jobs := [Samples.job "J2" "processing" None];
                   loading := false; error_message := None |}
                (FetchRejected (VError "TypeError" "Failed to fetch"))))
     = Some (Samples.job "J2" "processing" None).
Proof.
  pose proof (poll_replaces_job_list
                {| jobs := [Samples.job "J2" "processing" None];
                   loading := false; error_message := None |}) as H.
  split.
  - exact (proj2 (proj1 (H (FetchResponse true
              (Ok (BareArray [Samples.job "J1" "queued" None]))) "J2")
              [Samples.job "J1" "queued" None] eq_refl) eq_refl).
  - exact (proj2 (H (FetchRejected (VError "TypeError" "Failed to fetch")) "J2")
              (VError "TypeError" "Failed to fetch") eq_refl).
Defined.

End JobListProps.

(** ** The socket hook *)
Module WebSocketProps.
Import Js WebSocketHook.

(** *** The reconnect counter *)

Lemma connect_attempts (p : Platform) (st : State) :
  reconnectAttemptsRef (connect p st) = reconnectAttemptsRef st.
Proof.
  unfold connect.
  destruct (current_is_open st); [reflexivity|].
  destruct (url_accepted p); reflexivity.
Qed.

Lemma disconnect_attempts (st : State) :
  reconnectAttemptsRef (disconnect st) = reconnectAttemptsRef st.
Proof.
  unfold disconnect, close.
  destruct (reconnectTimeoutRef st) as [t|]; [destruct (t =? 0)%nat|]; simpl;
    (destruct (wsRef st) as [sock|]; simpl; [|reflexivity]);
    (destruct (sockets st !! sock) as [[]|]; reflexivity).
Qed.

Lemma onmessage_attempts (p : Platform) (data : string) (st : State) :
  reconnectAttemptsRef (onmessage p data st) = reconnectAttemptsRef st.
Proof. unfold onmessage; destruct (JSON_parse p data); reflexivity. Qed.

Lemma connect_status (p : Platform) (st : State) :
  status (connect p st) = connected -> status st = connected.
Proof.
  unfold connect.
  destruct (current_is_open st); [auto|].
  destruct (url_accepted p); simpl; discriminate.
Qed.

(** What one event does to the counter, to the armed timeouts and to the
    status [connected]. *)
Lemma step_attempts (o : Options) (p : Platform) (st st' : State) (ev : Event) :
  step o p st ev = Some st' ->
  match ev with
  | SocketOpens _ =>
      status st' = connected /\ reconnectAttemptsRef st' = 0%Z
  | SocketCloses _ =>
      status st' = disconnected
      /\ if reconnect o && (reconnectAttemptsRef st <? maxReconnectAttempts o)%Z
         then reconnectAttemptsRef st' = (reconnectAttemptsRef st + 1)%Z
              /\ timers st' = {[next_timer st]} ∪ timers st
         else reconnectAttemptsRef st' = reconnectAttemptsRef st
              /\ timers st' = timers st
  | _ =>
      reconnectAttemptsRef st' = reconnectAttemptsRef st
      /\ (status st' = connected -> status st = connected)
  end.
Proof.
  destruct ev as [| |t|sock|sock data|sock|sock]; simpl; intros H.
  - injection H as <-. split; [apply connect_attempts | apply connect_status].
  - injection H as <-. split; [apply disconnect_attempts | discriminate].
  - destruct (bool_decide (t ∈ timers st)); [|discriminate].
    injection H as <-. rewrite connect_attempts. split; [reflexivity|].
    intros Hc; apply connect_status in Hc; exact Hc.
  - destruct (bool_decide (readyState st sock = Some CONNECTING)); [|discriminate].
    injection H as <-. split; reflexivity.
  - destruct (bool_decide (readyState st sock = Some OPEN)); [|discriminate].
    injection H as <-. split; [apply onmessage_attempts|].
    unfold onmessage; destruct (JSON_parse p data); simpl; auto.
  - destruct (not_closed st sock); [|discriminate].
    injection H as <-. split; [reflexivity | discriminate].
  - destruct (not_closed st sock); [|discriminate].
    injection H as <-. unfold onclose; simpl.
    destruct (reconnect o && (reconnectAttemptsRef st <? maxReconnectAttempts o)%Z);
      simpl; auto.
Qed.

Lemma step_bound (o : Options) (p : Platform) (st st' : State) (ev : Event) :
  (0 <= reconnectAttemptsRef st <= maxReconnectAttempts o)%Z ->
  step o p st ev = Some st' ->
  (0 <= reconnectAttemptsRef st' <= maxReconnectAttempts o)%Z.
Proof.
  intros Hb H. apply step_attempts in H.
  destruct ev; try (destruct H as [-> _]; exact Hb).
  - destruct H as [_ ->]. lia.
  - destruct H as [_ H].
    destruct (reconnect o); simpl in H;
      [destruct (Z.ltb_spec (reconnectAttemptsRef st) (maxReconnectAttempts o))|];
      destruct H as [-> _]; lia.
Qed.

Lemma run_bound (o : Options) (p : Platform) (evs : list Event) :
  forall st st',
    (0 <= reconnectAttemptsRef st <= maxReconnectAttempts o)%Z ->
    run o p st evs = Some st' ->
    (0 <= reconnectAttemptsRef st' <= maxReconnectAttempts o)%Z.
Proof.
  induction evs as [|ev evs IH]; simpl; intros st st' Hb H.
  - injection H as <-. exact Hb.
  - destruct (step o p st ev) as [st1|] eqn:Hs; [|discriminate].
    eapply IH; [|exact H]. eapply step_bound; eauto.
Qed.

(** C6.  With a maximum that is not negative, the reconnect counter stays
    between zero and the maximum in every reachable state.  An event changes
    it in two cases only: a socket that opens sets the status to [connected]
    and the counter to zero, and a close event that schedules a retry (auto
    reconnect is on and the counter is below the maximum) arms one timeout
    and adds one.  No other event changes the counter or brings the status
    to [connected]. *)
Theorem reconnect_attempts_bounded (o : Options) (p : Platform) :
  (0 <= maxReconnectAttempts o)%Z ->
  (forall st, reachable o p st ->
      (0 <= reconnectAttemptsRef st <= maxReconnectAttempts o)%Z)
  /\ (forall st ev st', step o p st ev = Some st' ->
      match ev with
      | SocketOpens _ =>
          status st' = connected /\ reconnectAttemptsRef st' = 0%Z
      | SocketCloses _ =>
          status st' = disconnected
          /\ if reconnect o && (reconnectAttemptsRef st <? maxReconnectAttempts o)%Z
             then reconnectAttemptsRef st' = (reconnectAttemptsRef st + 1)%Z
                  /\ timers st' = {[next_timer st]} ∪ timers st
             else reconnectAttemptsRef st' = reconnectAttemptsRef st
                  /\ timers st' = timers st
      | _ =>
          reconnectAttemptsRef st' = reconnectAttemptsRef st
          /\ (status st' = connected -> status st = connected)
      end).
Proof.
  intros Hmax; split.
  - intros st [evs Hrun]. eapply run_bound; [|exact Hrun]. simpl; lia.
  - intros st ev st'. apply step_attempts.
Qed.
Lemma retryState_reachable :
  reachable defaultOptions Samples.platform Samples.retryState.
Proof. exists Samples.retryTrace. vm_compute. reflexivity. Qed.

Lemma reconnect_attempts_bounded_witness :
  (0 <= maxReconnectAttempts defaultOptions)%Z
  /\ (0 <= reconnectAttemptsRef Samples.retryState
        <= maxReconnectAttempts defaultOptions)%Z.
Proof.
  assert (H0 : (0 <= maxReconnectAttempts defaultOptions)%Z) by (simpl; lia).
  split; [exact H0|].
  exact (proj1 (reconnect_attempts_bounded defaultOptions Samples.platform H0)
           Samples.retryState retryState_reachable).
Defined.

Example retryState_counts :
  reconnectAttemptsRef Samples.retryState = 2%Z
  /\ status Samples.retryState = connecting
  /\ wsRef Samples.retryState = Some 2.
Proof. repeat split. Qed.

(** With at most one retry allowed, the second close arms nothing: the hook
    stays [disconnected] with no timeout armed. *)
Example retries_exhausted :
  exists st,
    run {| reconnect := true; reconnectInterval := 3000; maxReconnectAttempts := 1 |}
        Samples.platform initial
        [CallConnect; SocketCloses 0; TimerFires 1; SocketCloses 1] = Some st
    /\ status st = disconnected
    /\ reconnectAttemptsRef st = 1%Z
    /\ elements (timers st) = [].
Proof. eexists; split; [vm_compute; reflexivity|]. repeat split. Qed.

(** *** Frames *)

(** C8.  A frame that the JSON parser rejects raises nothing: the message
    handler completes, the [message] cell holds the frame as it arrived, and
    no other cell or ref changes. *)
Theorem unparseable_frame_forwarded_raw
    (o : Options) (p : Platform) (st : State) (sock : nat) (data : string)
    (e : Value) :
  readyState st sock = Some OPEN ->
  JSON_parse p data = Throw e ->
  step o p st (SocketMessage sock data) = Some (setMessage (Raw data) st)
  /\ onmessage p data st = setMessage (Raw data) st
  /\ message (onmessage p data st) = Some (Raw data).
Proof.
  intros Hopen Hparse. unfold step, onmessage.
  rewrite bool_decide_eq_true_2 by exact Hopen.
  rewrite Hparse. repeat split.
Qed.

Lemma unparseable_frame_forwarded_raw_witness :
  step defaultOptions Samples.platform Samples.openState
       (SocketMessage 0 "progress: 40%")
  = Some (setMessage (Raw "progress: 40%") Samples.openState)
  /\ onmessage Samples.platform "progress: 40%" Samples.openState
     = setMessage (Raw "progress: 40%") Samples.openState
  /\ message (onmessage Samples.platform "progress: 40%" Samples.openState)
     = Some (Raw "progress: 40%").
Proof.
  apply (unparseable_frame_forwarded_raw defaultOptions Samples.platform
           Samples.openState 0 "progress: 40%"
           (VError "SyntaxError" "Unexpected token")).
  - vm_compute. reflexivity.
  - reflexivity.
Defined.

Example parseable_frame_parsed :
  message (onmessage Samples.platform "true" Samples.openState)
  = Some (Parsed (JBool true)).
Proof. reflexivity. Qed.

(** *** [connect] *)

Lemma current_is_open_spec (st : State) :
  current_is_open st = true <->
  exists sock, wsRef st = Some sock /\ readyState st sock = Some OPEN.
Proof.
  unfold current_is_open. destruct (wsRef st) as [sock|].
  - rewrite bool_decide_eq_true. split.
    + intros H; exists sock; auto.
    + intros (s & [= <-] & H); exact H.
  - split; [discriminate | intros (s & [=] & _)].
Qed.




(** *** [disconnect] *)

(** What [disconnect()] does at once: the timeout the ref names is disarmed,
    the current socket is no longer connecting or open, the ref to it is
    cleared and the status is [disconnected]. *)
Lemma disconnect_effect (st : State) :
  status (disconnect st) = disconnected
  /\ wsRef (disconnect st) = None
  /\ (forall t, reconnectTimeoutRef st = Some t -> t <> 0 ->
        t ∉ timers (disconnect st))
  /\ (forall sock, wsRef st = Some sock ->
        readyState (disconnect st) sock <> Some CONNECTING
        /\ readyState (disconnect st) sock <> Some OPEN).
Proof.
  unfold disconnect.
  set (st1 := match reconnectTimeoutRef st with
              | Some t => if (t =? 0)%nat then st else clearTimeout t st
              | None => st
              end).
  assert (Hws : wsRef st1 = wsRef st).
  { subst st1. destruct (reconnectTimeoutRef st) as [t|];
      [destruct (t =? 0)%nat|]; reflexivity. }
  assert (Hso : sockets st1 = sockets st).
  { subst st1. destruct (reconnectTimeoutRef st) as [t|];
      [destruct (t =? 0)%nat|]; reflexivity. }
  assert (Hcl : forall sock, timers (close sock st1) = timers st1).
  { intros sock. unfold close.
    destruct (sockets st1 !! sock) as [[]|]; reflexivity. }
  split; [reflexivity|]. split; [|split].
  - destruct (wsRef st1) eqn:E; simpl; [reflexivity | exact E].
  - intros t Ht Hne.
    assert (Hti : t ∉ timers st1).
    { subst st1. rewrite Ht. apply Nat.eqb_neq in Hne; rewrite Hne; simpl.
      rewrite elem_of_difference, elem_of_singleton. tauto. }
    destruct (wsRef st1) as [sock|]; simpl; [rewrite Hcl|]; exact Hti.
  - intros sock Hs. rewrite Hws, Hs. unfold readyState, close; simpl.
    destruct (sockets st1 !! sock) as [[]|] eqn:E; simpl;
      rewrite ?lookup_insert_eq, ?E; split; congruence.
Qed.

(** C4 (the code at the failing input).  The hook is mounted, its socket
    opens, and [disconnect()] is called: the status is [disconnected], no
    timeout is armed and socket 0 is closing.  Then, with no call by anyone,
    the browser delivers the close event of socket 0, whose handler arms a
    timeout, and that timeout fires [connect()]: a new socket 1 is
    connecting. *)
Theorem disconnect_then_close_event_reconnects :
  (exists st,
      run defaultOptions Samples.platform initial Samples.disconnectTrace = Some st
      /\ status st = disconnected
      /\ wsRef st = None
      /\ elements (timers st) = []
      /\ readyState st 0 = Some CLOSING
      /\ exists st',
          run defaultOptions Samples.platform st Samples.afterDisconnectTrace = Some st'
          /\ status st' = connecting
          /\ wsRef st' = Some 1
          /\ readyState st' 1 = Some CONNECTING
          /\ reconnectAttemptsRef st' = 1%Z)
  /\ forallb is_call Samples.afterDisconnectTrace = false.
Proof.
  split; [|reflexivity].
  eexists; split; [vm_compute; reflexivity|].
  repeat split.
  eexists; split; [vm_compute; reflexivity|].
  repeat split.
Qed.

(** The same holds from every state: when auto reconnect is on, the counter
    is below the maximum and the current socket is open, [disconnect()]
    followed by nothing but the close event of that socket and the timeout
    the close handler arms ends with a new socket being connected. *)
Lemma disconnect_open_socket_reconnects
    (o : Options) (p : Platform) (st : State) (sock : nat) :
  reconnect o = true ->
  (reconnectAttemptsRef st < maxReconnectAttempts o)%Z ->
  url_accepted p = true ->
  wsRef st = Some sock ->
  readyState st sock = Some OPEN ->
  exists st',
    run o p st [CallDisconnect; SocketCloses sock; TimerFires (next_timer st)]
      = Some st'
    /\ status st' = connecting
    /\ wsRef st' = Some (next_socket st)
    /\ readyState st' (next_socket st) = Some CONNECTING.
Proof.
  intros Hre Hlt Hurl Hws Hopen.
  assert (Hd : exists tm rt,
    disconnect st =
    {| message := message st; status := disconnected; wsRef := None;
       reconnectAttemptsRef := reconnectAttemptsRef st;
       reconnectTimeoutRef := rt;
       sockets := <[sock := CLOSING]> (sockets st); timers := tm;
       next_socket := next_socket st; next_timer := next_timer st |}).
  { unfold disconnect, close, readyState in *.
    destruct (reconnectTimeoutRef st) as [t|];
      [destruct (t =? 0)%nat|]; simpl; rewrite Hws; simpl; rewrite Hopen;
      do 2 eexists; reflexivity. }
  destruct Hd as (tm & rt & Hd).
  apply Z.ltb_lt in Hlt.
  unfold run, step. rewrite Hd.
  unfold not_closed, readyState; simpl. rewrite lookup_insert_eq.
  unfold onclose; simpl. rewrite Hre, Hlt; simpl.
  rewrite bool_decide_eq_true_2
    by (apply elem_of_union_l, elem_of_singleton; reflexivity).
  unfold connect, current_is_open; simpl. rewrite Hurl; simpl.
  eexists; split; [reflexivity|]. simpl. repeat split.
  apply lookup_insert_eq.
Qed.

(** [connect] never closes or alters a socket that exists already. *)
Lemma connect_keeps_other_sockets (p : Platform) (st : State) (sock : nat) :
  sock <> next_socket st ->
  readyState (connect p st) sock = readyState st sock.
Proof.
  intros Hne. unfold connect.
  destruct (current_is_open st); [reflexivity|].
  destruct (url_accepted p); [|reflexivity].
  unfold readyState; simpl. apply lookup_insert_ne. congruence.
Qed.

End WebSocketProps.

(** ** The request hook *)
Module ApiProps.
Import Js Api.

Lemma prefix_refl (s : string) : String.prefix s s = true.
Proof.
  induction s as [|c s IH]; simpl; [reflexivity|].
  destruct (Ascii.ascii_dec c c) as [_|n]; [exact IH | destruct n; reflexivity].
Qed.

Lemma str_includes_unfold (needle hay : string) :
  str_includes needle hay =
  String.prefix needle hay ||
  match hay with
  | EmptyString => false
  | String _ rest => str_includes needle rest
  end.
Proof. destruct hay; reflexivity. Qed.

Lemma str_includes_self (s : string) : str_includes s s = true.
Proof. rewrite str_includes_unfold, prefix_refl. reflexivity. Qed.

Lemma str_includes_app (needle pre : string) :
  str_includes needle (pre ++ needle) = true.
Proof.
  induction pre as [|c pre IH].
  - apply str_includes_self.
  - change (String c pre ++ needle) with (String c (pre ++ needle)).
    rewrite str_includes_unfold, IH. apply orb_true_r.
Qed.

(** The fallback error of [handleResponse] names the status code. *)
Lemma http_fallback_carries_status (code : nat) :
  carries_status
    (VJson (apiError "unknown_error" "ERR_UNKNOWN" ("HTTP " ++ string_of_nat code)))
    code = true.
Proof.
  unfold carries_status; simpl.
  apply (str_includes_app (string_of_nat code) "HTTP ").
Qed.

Lemma handleResponse_not_ok (r : Response) :
  ok r = false ->
  handleResponse r =
  Throw (VJson (json_or r
    (apiError "unknown_error" "ERR_UNKNOWN" ("HTTP " ++ string_of_nat (status r))))).
Proof. unfold handleResponse; intros ->; reflexivity. Qed.

Lemma delResponse_not_ok (r : Response) :
  ok r = false ->
  delResponse r =
  Throw (VJson (json_or r (apiError "delete_failed" "ERR_DELETE" "Delete failed"))).
Proof. unfold delResponse; intros ->; reflexivity. Qed.

(** The error cell after a call that met a response that did not succeed. *)
Lemma fetchData_error_not_ok (o : Options) (net : Network) (st : State)
    (url : string) (ro : RequestInit) (r : Response) :
  net (fetchRequest o url ro) = Ok r -> ok r = false ->
  fetchData o net st url ro =
  ({| data := data st;
      error := VJson (json_or r
        (apiError "unknown_error" "ERR_UNKNOWN" ("HTTP " ++ string_of_nat (status r))));
      loading := false |}, Ok null).
Proof.
  intros Hnet Hok. unfold fetchData. rewrite Hnet; simpl.
  rewrite (handleResponse_not_ok r Hok). reflexivity.
Qed.

Lemma del_error_not_ok (o : Options) (net : Network) (st : State)
    (url : string) (r : Response) :
  net (delRequest o url) = Ok r -> ok r = false ->
  del o net st url =
  ({| data := data st;
      error := VJson (json_or r (apiError "delete_failed" "ERR_DELETE" "Delete failed"));
      loading := false |}, Ok false).
Proof.
  intros Hnet Hok. unfold del. rewrite Hnet; simpl.
  rewrite (delResponse_not_ok r Hok). reflexivity.
Qed.

(** C9 (as stated, refuted).  A DELETE answered with status 500 and a body
    that is not JSON: the stored error is the fixed one of [del], and its
    message does not mention 500. *)
Lemma del_fallback_lacks_status :
  error (state_after DELETE Samples.apiOptions Samples.brokenServer initial
           "/jobs/7" None)
  = VJson (apiError "delete_failed" "ERR_DELETE" "Delete failed")
  /\ carries_status
       (error (state_after DELETE Samples.apiOptions Samples.brokenServer initial
                 "/jobs/7" None))
       500 = false.
Proof. split; reflexivity. Qed.

(** C9 (amended).  When the response has a status that is not a success, the
    call stores as its error the document parsed from the body.  When the
    body does not parse, [fetch], [post] and [put] store a fallback whose
    message is ["HTTP "] followed by the status code, and [del] stores its
    own fixed fallback with the message ["Delete failed"]. *)
Theorem error_from_failed_response (v : Verb) (o : Options) (r : Response)
    (st : State) (url : string) (body : option string) :
  ok r = false ->
  error (state_after v o (fun _ => Ok r) st url body)
  = VJson (match json r with
           | Ok parsed => parsed
           | Throw _ =>
               match v with
               | DELETE => apiError "delete_failed" "ERR_DELETE" "Delete failed"
               | _ => apiError "unknown_error" "ERR_UNKNOWN"
                               ("HTTP " ++ string_of_nat (status r))
               end
           end)
  /\ (forall e, v <> DELETE -> json r = Throw e ->
      carries_status (error (state_after v o (fun _ => Ok r) st url body))
                     (status r) = true).
Proof.
  intros Hok.
  assert (Hf : forall ro, fetchData o (fun _ => Ok r) st url ro =
    ({| data := data st;
        error := VJson (json_or r
          (apiError "unknown_error" "ERR_UNKNOWN" ("HTTP " ++ string_of_nat (status r))));
        loading := false |}, Ok null)).
  { intros ro. now apply fetchData_error_not_ok. }
  assert (Hd : del o (fun _ => Ok r) st url =
    ({| data := data st;
        error := VJson (json_or r (apiError "delete_failed" "ERR_DELETE" "Delete failed"));
        loading := false |}, Ok false)).
  { now apply del_error_not_ok. }
  split.
  - destruct v; unfold state_after, post, put; rewrite ?Hf, ?Hd; simpl;
      unfold json_or; destruct (json r); reflexivity.
  - intros e Hv Hj.
    destruct v; try congruence; unfold state_after, post, put; rewrite Hf; simpl;
      unfold json_or; rewrite Hj; apply http_fallback_carries_status.
Qed.
Lemma error_from_failed_response_witness :
  Api.ok Samples.brokenResponse = false
  /\ error (state_after PUT Samples.apiOptions (fun _ => Ok Samples.brokenResponse)
              initial "/jobs/7" (Some "{}"))
     = VJson (apiError "unknown_error" "ERR_UNKNOWN" "HTTP 500")
  /\ carries_status
       (error (state_after PUT Samples.apiOptions (fun _ => Ok Samples.brokenResponse)
                 initial "/jobs/7" (Some "{}")))
       500 = true.
Proof.
  assert (Hok : Api.ok Samples.brokenResponse = false) by reflexivity.
  split; [exact Hok|].
  pose proof (error_from_failed_response PUT Samples.apiOptions
                Samples.brokenResponse initial "/jobs/7" (Some "{}") Hok) as [H1 H2].
  split.
  - exact H1.
  - apply (H2 (VError "SyntaxError" "Unexpected token <")); [discriminate | reflexivity].
Defined.

Example structured_error_surfaced :
  error (state_after GET Samples.apiOptions Samples.notFoundServer initial
           "/jobs/7" None)
  = VJson Samples.notFoundBody
  /\ error (state_after DELETE Samples.apiOptions Samples.notFoundServer initial
              "/jobs/7" None)
     = VJson Samples.notFoundBody.
Proof. split; reflexivity. Qed.

(** *** Settlement of the calls *)

Lemma fetchData_resolves (o : Options) (net : Network) (st : State)
    (url : string) (ro : RequestInit) :
  exists v, snd (fetchData o net st url ro) = Ok v
            /\ loading (fst (fetchData o net st url ro)) = false.
Proof.
  unfold fetchData.
  destruct (bind (net (fetchRequest o url ro)) handleResponse) as [v|e]; simpl; eauto.
Qed.

Lemma del_resolves (o : Options) (net : Network) (st : State) (url : string) :
  exists b, snd (del o net st url) = Ok b
            /\ loading (fst (del o net st url)) = false.
Proof.
  unfold del.
  destruct (bind (net (delRequest o url)) delResponse) as [b|e]; simpl; eauto.
Qed.

Section Settlement.
Context {Body : Type}.
Variable JSON_stringify : Body -> Outcome (option string).
Variable o : Options.
Variable net : Network.
Variable st : State.
Variable url : string.

(** C10 (amended).  [fetch] and [del] never reject.  [fetch] resolves, with
    [loading] false again; when the network fails or the status is not a
    success it resolves to [null] and the error cell holds the value that
    was thrown, as it is: the error of the network, the document parsed
    from the body (also when that document is [null]) or the fallback; a
    successful response whose content type is not JSON resolves to [null]
    with the error cell [null].  [post] and [put] are [fetch] calls once
    their body is serialised and so resolve the same way; when
    [JSON.stringify] throws they reject with its exception and change no
    cell.  [del] resolves to [true] on a successful response and to
    [false], with what was thrown in the error cell, otherwise. *)
Theorem requests_settle :
  (forall ro,
      (exists v, snd (fetchData o net st url ro) = Ok v
                 /\ loading (fst (fetchData o net st url ro)) = false)
      /\ match net (fetchRequest o url ro) with
         | Throw e =>
             fetchData o net st url ro =
             ({| data := data st; error := e; loading := false |}, Ok null)
         | Ok r =>
             if ok r then
               isJsonContentType r = false ->
               fetchData o net st url ro =
               ({| data := null; error := null; loading := false |}, Ok null)
             else
               fetchData o net st url ro =
               ({| data := data st;
                   error := VJson (json_or r
                     (apiError "unknown_error" "ERR_UNKNOWN"
                               ("HTTP " ++ string_of_nat (status r))));
                   loading := false |}, Ok null)
         end)
  /\ (forall body text, JSON_stringify body = Ok text ->
        post JSON_stringify o net st url body
          = fetchData o net st url (jsonInit "POST" text)
        /\ put JSON_stringify o net st url body
          = fetchData o net st url (jsonInit "PUT" text))
  /\ (forall body e, JSON_stringify body = Throw e ->
        post JSON_stringify o net st url body = (st, Throw e)
        /\ put JSON_stringify o net st url body = (st, Throw e))
  /\ (exists b, snd (del o net st url) = Ok b
                /\ loading (fst (del o net st url)) = false)
  /\ match net (delRequest o url) with
     | Throw e =>
         del o net st url =
         ({| data := data st; error := e; loading := false |}, Ok false)
     | Ok r =>
         if ok r then
           del o net st url =
           ({| data := data st; error := null; loading := false |}, Ok true)
         else
           del o net st url =
           ({| data := data st;
               error := VJson (json_or r
                 (apiError "delete_failed" "ERR_DELETE" "Delete failed"));
               loading := false |}, Ok false)
     end.
Proof.
  split; [|split; [|split; [|split]]].
  - intros ro. split; [apply fetchData_resolves|].
    destruct (net (fetchRequest o url ro)) as [r|e] eqn:Hnet.
    + destruct (ok r) eqn:Hok.
      * intros Hct. unfold fetchData, handleResponse.
        rewrite Hnet; simpl. rewrite Hok, Hct; reflexivity.
      * now apply fetchData_error_not_ok.
    + unfold fetchData. rewrite Hnet; reflexivity.
  - intros body text H. unfold post, put. rewrite H. split; reflexivity.
  - intros body e H. unfold post, put. rewrite H. split; reflexivity.
  - apply del_resolves.
  - destruct (net (delRequest o url)) as [r|e] eqn:Hnet.
    + destruct (ok r) eqn:Hok.
      * unfold del, delResponse. rewrite Hnet; simpl. rewrite Hok; reflexivity.
      * now apply del_error_not_ok.
    + unfold del. rewrite Hnet; reflexivity.
Qed.

End Settlement.

Lemma requests_settle_witness :
  fetchData Samples.apiOptions Samples.offline initial "/jobs" noInit
    = ({| data := null; error := VError "TypeError" "Failed to fetch";
          loading := false |}, Ok null)
  /\ fetchData Samples.apiOptions Samples.noContentServer initial "/jobs" noInit
     = ({| data := null; error := null; loading := false |}, Ok null)
  /\ post Samples.stringifyText Samples.apiOptions Samples.brokenServer initial
          "/jobs" "{}"
     = fetchData Samples.apiOptions Samples.brokenServer initial "/jobs"
         (jsonInit "POST" (Some "{}"))
  /\ put Samples.stringifyText Samples.apiOptions Samples.brokenServer initial
         "/jobs" "cycle"
     = (initial, Throw (VError "TypeError" "Converting circular structure to JSON"))
  /\ del Samples.apiOptions Samples.brokenServer initial "/jobs/7"
     = ({| data := null;
           error := VJson (apiError "delete_failed" "ERR_DELETE" "Delete failed");
           loading := false |}, Ok false).
Proof.
  split; [|split; [|split; [|split]]].
  - exact (proj2 (proj1 (requests_settle Samples.stringifyText
             Samples.apiOptions Samples.offline initial "/jobs") noInit)).
  - exact (proj2 (proj1 (requests_settle Samples.stringifyText
             Samples.apiOptions Samples.noContentServer initial "/jobs") noInit)
             eq_refl).
  - exact (proj1 (proj1 (proj2 (requests_settle Samples.stringifyText
             Samples.apiOptions Samples.brokenServer initial "/jobs"))
             "{}" (Some "{}") eq_refl)).
  - exact (proj2 (proj1 (proj2 (proj2 (requests_settle Samples.stringifyText
             Samples.apiOptions Samples.brokenServer initial "/jobs")))
             "cycle" _ eq_refl)).
  - exact (proj2 (proj2 (proj2 (proj2 (requests_settle Samples.stringifyText
             Samples.apiOptions Samples.brokenServer initial "/jobs/7"))))).
Defined.

(** C10 (as stated, refuted).  A [post] whose body cannot be serialised
    rejects.  And a response with status 500 whose body is the JSON document
    [null] is a failure that leaves the error cell [null]: nothing is
    stored. *)
Lemma request_rejects_or_stores_nothing :
  snd (post Samples.stringifyText Samples.apiOptions Samples.offline initial
            "/jobs" "cycle")
  = Throw (VError "TypeError" "Converting circular structure to JSON")
  /\ failed (Ok {| status := 500; content_type := Some "application/json";
                   json := Ok JNull |}) = true
  /\ error (fst (fetchData Samples.apiOptions
                   (fun _ => Ok {| status := 500;
                                   content_type := Some "application/json";
                                   json := Ok JNull |})
                   initial "/jobs" noInit))
     = null.
Proof. repeat split. Qed.

(** A body that cannot be serialised is the one way [post] rejects: the
    exception of [JSON.stringify] is raised before any request is issued,
    and no cell changes. *)
Example post_unserialisable_body :
  post Samples.stringifyText Samples.apiOptions Samples.offline initial "/jobs" "cycle"
  = (initial, Throw (VError "TypeError" "Converting circular structure to JSON")).
Proof. reflexivity. Qed.

(** An error body that is the JSON document [null] is stored as it is: the
    error cell then reads [null], as if nothing had failed. *)
Example null_error_body :
  fetchData Samples.apiOptions
    (fun _ => Ok {| status := 500; content_type := Some "application/json";
                    json := Ok JNull |})
    initial "/jobs" noInit
  = ({| data := null; error := null; loading := false |}, Ok null).
Proof. reflexivity. Qed.

End ApiProps.

(** ** The cookie helpers of the theme hook *)
Module CookieProps.
Import Js Cookies.

Example split_examples :
  split "; " "a=1; b=2; c=3" = ["a=1"; "b=2"; "c=3"]
  /\ split "; " "" = [""]
  /\ split "; " "a; " = ["a"; ""]
  /\ split ";;" "a;;;b" = ["a"; ";b"]
  /\ split ";" "dark; x=1" = ["dark"; " x=1"].
Proof. repeat split. Qed.

Example getCookie_examples :
  getCookie (Some "a=1; lmsilo-theme=dark; b=2") "lmsilo-theme" = Some "dark"
  /\ getCookie (Some "lmsilo-theme=light") "lmsilo-theme" = Some "light"
  /\ getCookie (Some "a=1; b=2") "lmsilo-theme" = None
  /\ getCookie (Some "") "lmsilo-theme" = None
  /\ getCookie (Some "lmsilo-theme=dark; lmsilo-theme=light") "lmsilo-theme" = None
  /\ getCookie (Some "xlmsilo-theme=dark") "lmsilo-theme" = None
  /\ getCookie (Some "lmsilo-theme=") "lmsilo-theme" = Some ""
  /\ getCookie None "lmsilo-theme" = None.
Proof. repeat split. Qed.

Example setCookie_example :
  setCookie_text "lmsilo-theme" "dark"
    = "lmsilo-theme=dark; path=/; max-age=31536000; SameSite=Lax"
  /\ setCookie [("a", "1")] "lmsilo-theme" "dark"
     = Some [("a", "1"); ("lmsilo-theme", "dark")]
  /\ setCookie [("lmsilo-theme", "light"); ("a", "1")] "lmsilo-theme" "dark"
     = Some [("lmsilo-theme", "dark"); ("a", "1")]
  /\ setCookie [("a", "1")] " a" " padded " = Some [("a", "padded")]
  /\ setCookie [("a", "1")] "" "v" = None.
Proof. repeat split. Qed.

Lemma append_cons (x : ascii) (a b : string) : String x a ++ b = String x (a ++ b).
Proof. reflexivity. Qed.

Lemma append_assoc (a b c : string) : (a ++ b) ++ c = a ++ (b ++ c).
Proof.
  induction a as [|x a IH]; [reflexivity|].
  now rewrite !append_cons, IH.
Qed.

Lemma append_nil_r (a : string) : a ++ "" = a.
Proof.
  induction a as [|x a IH]; [reflexivity|].
  now rewrite append_cons, IH.
Qed.

Lemma prefix_cons (c d : ascii) (a b : string) :
  String.prefix (String c a) (String d b) =
  if Ascii.eqb c d then String.prefix a b else false.
Proof.
  simpl. destruct (Ascii.ascii_dec c d) as [->|n].
  - now rewrite Ascii.eqb_refl.
  - apply Ascii.eqb_neq in n. now rewrite n.
Qed.

Lemma prefix_nil (s : string) : String.prefix "" s = true.
Proof. destruct s; reflexivity. Qed.

Lemma prefix_app_same (a b c : string) :
  String.prefix (a ++ b) (a ++ c) = String.prefix b c.
Proof.
  induction a as [|x a IH]; [reflexivity|].
  change (String x a ++ b) with (String x (a ++ b)).
  change (String x a ++ c) with (String x (a ++ c)).
  now rewrite prefix_cons, Ascii.eqb_refl.
Qed.

Lemma prefix_app_self (a r : string) : String.prefix a (a ++ r) = true.
Proof.
  rewrite <- (append_nil_r a) at 1. rewrite prefix_app_same. apply prefix_nil.
Qed.

Lemma split_go_skip (sep t : string) :
  forall cur r, split_go sep (String.length t) cur (t ++ r) = split_go sep 0 cur r.
Proof.
  induction t as [|x t IH]; intros cur r; [destruct r; reflexivity|].
  simpl. apply IH.
Qed.

Lemma split_go_unfold (sep cur : string) (c : ascii) (rest : string) :
  split_go sep 0 cur (String c rest) =
  if String.prefix sep (String c rest)
  then cur :: split_go sep (String.length sep - 1) "" rest
  else split_go sep 0 (cur ++ String c "") rest.
Proof. reflexivity. Qed.

Lemma split_go_lacks (ch : ascii) (sep' t : string) :
  lacks ch t = true ->
  forall cur r,
    split_go (String ch sep') 0 cur (t ++ r) = split_go (String ch sep') 0 (cur ++ t) r.
Proof.
  induction t as [|x t IH]; intros Hl cur r.
  - now rewrite append_nil_r.
  - simpl in Hl. apply andb_true_iff in Hl as [Hx Ht].
    change (String x t ++ r) with (String x (t ++ r)).
    rewrite split_go_unfold, prefix_cons.
    rewrite Ascii.eqb_sym. apply negb_true_iff in Hx. rewrite Hx.
    rewrite IH by exact Ht. now rewrite append_assoc.
Qed.

Lemma split_go_match (ch : ascii) (sep' cur r : string) :
  split_go (String ch sep') 0 cur (String ch sep' ++ r)
  = cur :: split_go (String ch sep') 0 "" r.
Proof.
  change (String ch sep' ++ r) with (String ch (sep' ++ r)).
  rewrite split_go_unfold.
  change (String ch (sep' ++ r)) with (String ch sep' ++ r).
  rewrite prefix_app_self.
  change (String.length (String ch sep') - 1) with (String.length sep' - 0).
  rewrite Nat.sub_0_r. now rewrite split_go_skip.
Qed.

Lemma lacks_app (c : ascii) (a b : string) :
  lacks c (a ++ b) = lacks c a && lacks c b.
Proof.
  induction a as [|x a IH]; [reflexivity|].
  rewrite append_cons; simpl. rewrite IH. now rewrite andb_assoc.
Qed.

Lemma name_prefix_mismatch (name k rest : string) :
  lacks "=" name = true -> lacks "=" k = true -> k <> name ->
  String.prefix (name ++ "=") (k ++ "=" ++ rest) = false.
Proof.
  revert k; induction name as [|c name IH]; intros [|d k] Hn Hk Hne.
  - congruence.
  - simpl in Hk. apply andb_true_iff in Hk as [Hd _].
    apply negb_true_iff in Hd.
    change ("" ++ "=") with (String "="%char "").
    rewrite append_cons, prefix_cons, Ascii.eqb_sym, Hd. reflexivity.
  - simpl in Hn. apply andb_true_iff in Hn as [Hc _].
    apply negb_true_iff in Hc.
    change ("" ++ "=" ++ rest) with (String "="%char rest).
    rewrite append_cons, prefix_cons, Hc. reflexivity.
  - simpl in Hn, Hk.
    apply andb_true_iff in Hn as [_ Hn]. apply andb_true_iff in Hk as [_ Hk].
    rewrite !append_cons, prefix_cons.
    destruct (Ascii.eqb c d) eqn:E; [|reflexivity].
    apply Ascii.eqb_eq in E; subst d.
    apply IH; [assumption | assumption | congruence].
Qed.

Lemma sep_of_cons (name : string) :
  sep_of name = String ";"%char (String " "%char (name ++ "=")).
Proof. reflexivity. Qed.

Section Jar.
Variable name : string.
Hypothesis name_ok : lacks "=" name = true.

Lemma entry_assoc (k v rest : string) :
  (k ++ "=" ++ v) ++ rest = k ++ "=" ++ (v ++ rest).
Proof. now rewrite !append_assoc. Qed.

Lemma split_go_other (k v cur rest : string) :
  lacks ";" k = true -> lacks "=" k = true -> lacks ";" v = true -> k <> name ->
  split_go (sep_of name) 0 cur ("; " ++ entry (k, v) ++ rest)
  = split_go (sep_of name) 0 (cur ++ "; " ++ entry (k, v)) rest.
Proof.
  intros Hk1 Hk2 Hv Hne. unfold entry; simpl fst; simpl snd.
  set (e := k ++ "=" ++ v).
  assert (He : lacks ";" (String " "%char e) = true).
  { subst e. simpl. rewrite !lacks_app, Hk1, Hv. reflexivity. }
  replace ("; " ++ e ++ rest) with (String ";"%char (String " "%char e ++ rest))
    by reflexivity.
  rewrite split_go_unfold, sep_of_cons, prefix_cons, Ascii.eqb_refl.
  rewrite append_cons, prefix_cons, Ascii.eqb_refl.
  subst e. rewrite entry_assoc.
  rewrite (name_prefix_mismatch name k (v ++ rest) name_ok Hk2 Hne).
  rewrite <- entry_assoc. cbv iota.
  replace (String " "%char ((k ++ "=" ++ v) ++ rest))
    with (String " "%char (k ++ "=" ++ v) ++ rest) by reflexivity.
  rewrite (split_go_lacks ";"%char _ _ He).
  f_equal. now rewrite !append_assoc.
Qed.

Lemma split_go_named (v cur rest : string) :
  lacks ";" v = true ->
  split_go (sep_of name) 0 cur ("; " ++ entry (name, v) ++ rest)
  = cur :: split_go (sep_of name) 0 v rest.
Proof.
  intros Hv. unfold entry; simpl fst; simpl snd.
  replace ("; " ++ (name ++ "=" ++ v) ++ rest) with (sep_of name ++ (v ++ rest)).
  2:{ unfold sep_of. now rewrite !append_assoc. }
  rewrite sep_of_cons, split_go_match.
  now rewrite (split_go_lacks ";"%char _ _ Hv).
Qed.

Lemma split_go_jar (jar : Jar) :
  well_formed jar ->
  forall cur,
    split_go (sep_of name) 0 cur (jar_text jar) = jar_parts name cur jar.
Proof.
  induction 1 as [|[k v] jar (Hk1 & Hk2 & Hv) _ IH]; intros cur; [reflexivity|].
  simpl in Hk1, Hk2, Hv.
  cbn [jar_text jar_parts].
  destruct (String.eqb_spec k name) as [->|Hne].
  - rewrite split_go_named by exact Hv. now rewrite IH.
  - rewrite split_go_other by assumption. apply IH.
Qed.

Lemma jar_parts_length (jar : Jar) :
  forall cur, length (jar_parts name cur jar) = S (occurrences name jar).
Proof.
  induction jar as [|[k v] jar IH]; intros cur; [reflexivity|].
  cbn [jar_parts occurrences].
  destruct (String.eqb k name); simpl; now rewrite IH.
Qed.

Lemma jar_parts_absent (jar : Jar) :
  occurrences name jar = 0 ->
  forall cur, jar_parts name cur jar = [cur ++ jar_text jar].
Proof.
  induction jar as [|[k v] jar IH]; intros H cur.
  - simpl. now rewrite append_nil_r.
  - cbn [jar_parts occurrences jar_text] in *.
    destruct (String.eqb k name); [discriminate|].
    rewrite IH by exact H. now rewrite !append_assoc.
Qed.

Lemma jar_parts_once (jar : Jar) :
  occurrences name jar = 1 ->
  forall cur, exists pre post v,
    lookup_cookie name jar = Some v
    /\ In (name, v) jar
    /\ jar_parts name cur jar = [pre; v ++ jar_text post].
Proof.
  induction jar as [|[k v] jar IH]; intros H cur; [discriminate|].
  cbn [jar_parts occurrences lookup_cookie] in *.
  destruct (String.eqb_spec k name) as [->|Hne].
  - exists cur, jar, v. split; [reflexivity|]. split; [left; reflexivity|].
    rewrite jar_parts_absent by lia. reflexivity.
  - destruct (IH H (cur ++ "; " ++ entry (k, v))) as (pre & post & w & Hl & Hin & Hp).
    exists pre, post, w. split; [exact Hl|]. split; [right; exact Hin | exact Hp].
Qed.

End Jar.

Lemma jar_text_starts (jar : Jar) :
  jar_text jar = "" \/ exists rest, jar_text jar = String ";"%char rest.
Proof. destruct jar; [left; reflexivity | right; eexists; reflexivity]. Qed.

Lemma head_split_semicolon (v rest : string) :
  lacks ";" v = true ->
  rest = "" \/ (exists r, rest = String ";"%char r) ->
  head (split ";" (v ++ rest)) = Some v.
Proof.
  intros Hv Hr. unfold split.
  rewrite (split_go_lacks ";"%char "" v Hv).
  change ("" ++ v) with v.
  destruct Hr as [-> | [r ->]]; [reflexivity|].
  rewrite split_go_unfold, prefix_cons, Ascii.eqb_refl, prefix_nil. reflexivity.
Qed.

Lemma cookie_string_text (jar : Jar) :
  jar <> [] -> "; " ++ cookie_string jar = jar_text jar.
Proof.
  unfold cookie_string.
  induction jar as [|kv jar IH]; intros Hne; [congruence|].
  destruct jar as [|kv' jar].
  - simpl. now rewrite append_nil_r.
  - specialize (IH ltac:(discriminate)).
    change ("; " ++ String.concat "; " (map entry (kv :: kv' :: jar)))
      with ("; " ++ entry kv ++ ("; " ++ String.concat "; " (map entry (kv' :: jar)))).
    rewrite IH. reflexivity.
Qed.

Lemma well_formed_value (name v : string) (jar : Jar) :
  well_formed jar -> In (name, v) jar -> lacks ";" v = true.
Proof.
  intros Hwf Hin. unfold well_formed in Hwf. rewrite Forall_forall in Hwf.
  apply list_elem_of_In in Hin. apply Hwf in Hin. simpl in Hin. tauto.
Qed.

(** What [getCookie] returns on the cookie string of a jar. *)
Lemma getCookie_jar (jar : Jar) (name : string) :
  well_formed jar -> lacks "=" name = true ->
  getCookie (Some (cookie_string jar)) name =
  if (occurrences name jar =? 1)%nat then lookup_cookie name jar else None.
Proof.
  intros Hwf Hn. unfold getCookie, split.
  destruct jar as [|kv jar'] eqn:Ej.
  { change ("; " ++ cookie_string []) with (String ";"%char (String " "%char "")).
    change ("; " ++ name ++ "=") with (sep_of name).
    rewrite split_go_unfold, sep_of_cons, !prefix_cons, !Ascii.eqb_refl.
    destruct name; reflexivity. }
  rewrite <- Ej in *. assert (Hne : jar <> []) by (rewrite Ej; discriminate).
  clear Ej kv jar'.
  rewrite (cookie_string_text jar Hne).
  change ("; " ++ name ++ "=") with (sep_of name).
  rewrite (split_go_jar name Hn jar Hwf), jar_parts_length.
  destruct (Nat.eqb_spec (occurrences name jar) 1) as [H1|H1].
  - rewrite H1; simpl.
    destruct (jar_parts_once name jar H1 "") as (pre & post & v & Hl & Hin & Hp).
    rewrite Hp, Hl; simpl.
    apply head_split_semicolon; [|apply jar_text_starts].
    eapply well_formed_value; eauto.
  - destruct (occurrences name jar) as [|[|n]]; try reflexivity. congruence.
Qed.

Lemma cut_at_equals_entry (k v : string) :
  lacks "=" k = true -> cut_at_equals (k ++ "=" ++ v) = Some (k, v).
Proof.
  induction k as [|c k IH]; intros H; [reflexivity|].
  simpl in H. apply andb_true_iff in H as [Hc Hk].
  apply negb_true_iff in Hc.
  rewrite append_cons. cbn [cut_at_equals]. rewrite Hc, IH by exact Hk.
  reflexivity.
Qed.

Lemma lacks_trim_left (c : ascii) (s : string) :
  lacks c s = true -> lacks c (trim_left s) = true.
Proof.
  induction s as [|d s IH]; intros H; [reflexivity|].
  cbn [trim_left]. destruct (is_blank d); [|exact H].
  simpl in H. apply andb_true_iff in H as [_ H]. now apply IH.
Qed.

Lemma lacks_trim_right (c : ascii) (s : string) :
  lacks c s = true -> lacks c (trim_right s) = true.
Proof.
  induction s as [|d s IH]; intros H; [reflexivity|].
  simpl in H. apply andb_true_iff in H as [Hd Hs]. specialize (IH Hs).
  cbn [trim_right]. destruct (trim_right s) as [|e kept].
  - destruct (is_blank d); [reflexivity|]. simpl. now rewrite Hd.
  - cbn [lacks] in *. now rewrite Hd, IH.
Qed.

Lemma lacks_trim (c : ascii) (s : string) :
  lacks c s = true -> lacks c (trim s) = true.
Proof. intros H. unfold trim. now apply lacks_trim_right, lacks_trim_left. Qed.

(** What [setCookie] stores. *)
Lemma setCookie_upsert (jar : Jar) (name value : string) :
  lacks ";" name = true -> lacks "=" name = true -> lacks ";" value = true ->
  covered (trim name) (trim value) = true ->
  setCookie jar name value = Some (upsert (trim name) (trim value) jar).
Proof.
  intros Hn1 Hn2 Hv Hc. unfold setCookie, assign_cookie, setCookie_text.
  rewrite <- entry_assoc.
  rewrite head_split_semicolon.
  - now rewrite cut_at_equals_entry, Hc.
  - rewrite !lacks_app, Hn1, Hv. reflexivity.
  - right. eexists. reflexivity.
Qed.

Lemma upsert_well_formed (jar : Jar) (name value : string) :
  lacks ";" name = true -> lacks "=" name = true -> lacks ";" value = true ->
  well_formed jar -> well_formed (upsert name value jar).
Proof.
  intros Hn1 Hn2 Hv. unfold well_formed.
  induction 1 as [|[k v] jar Hkv Hjar IH]; simpl.
  - constructor; [simpl; auto | constructor].
  - destruct (String.eqb k name); constructor; simpl; auto.
Qed.

Lemma upsert_occurrences (jar : Jar) (name value : string) :
  occurrences name (upsert name value jar) = Nat.max 1 (occurrences name jar).
Proof.
  induction jar as [|[k v] jar IH]; simpl.
  - now rewrite String.eqb_refl.
  - destruct (String.eqb k name) eqn:E; simpl.
    + rewrite String.eqb_refl. lia.
    + rewrite E, IH. reflexivity.
Qed.

Lemma upsert_lookup (jar : Jar) (name value : string) :
  lookup_cookie name (upsert name value jar) = Some value.
Proof.
  induction jar as [|[k v] jar IH]; simpl.
  - now rewrite String.eqb_refl.
  - destruct (String.eqb k name) eqn:E; simpl.
    + now rewrite String.eqb_refl.
    + now rewrite E.
Qed.

Lemma upsert_other (jar : Jar) (name value other : string) :
  other <> name ->
  occurrences other (upsert name value jar) = occurrences other jar
  /\ lookup_cookie other (upsert name value jar) = lookup_cookie other jar.
Proof.
  intros Hne. apply String.eqb_neq in Hne. rewrite String.eqb_sym in Hne.
  induction jar as [|[k v] jar [IH1 IH2]]; simpl.
  - rewrite Hne. auto.
  - destruct (String.eqb_spec k name) as [->|Hk]; simpl.
    + rewrite Hne. auto.
    + rewrite IH1, IH2. auto.
Qed.

Lemma upsert_get (jar : Jar) (name value : string) :
  well_formed jar ->
  lacks ";" name = true -> lacks "=" name = true -> lacks ";" value = true ->
  occurrences name jar <= 1 ->
  getCookie (Some (cookie_string (upsert name value jar))) name = Some value.
Proof.
  intros Hwf Hn1 Hn2 Hv Hocc.
  rewrite getCookie_jar by (auto using upsert_well_formed).
  rewrite upsert_occurrences, upsert_lookup.
  replace (Nat.max 1 (occurrences name jar)) with 1 by lia. reflexivity.
Qed.

Lemma upsert_get_other (jar : Jar) (name value other : string) :
  well_formed jar ->
  lacks ";" name = true -> lacks "=" name = true -> lacks ";" value = true ->
  lacks "=" other = true -> other <> name ->
  getCookie (Some (cookie_string (upsert name value jar))) other
  = getCookie (Some (cookie_string jar)) other.
Proof.
  intros Hwf Hn1 Hn2 Hv Ho Hne.
  rewrite !getCookie_jar by (auto using upsert_well_formed).
  destruct (upsert_other jar name value other Hne) as [-> ->]. reflexivity.
Qed.

Lemma occurrences_lookup (name : string) (jar : Jar) :
  occurrences name jar = 0 <-> lookup_cookie name jar = None.
Proof.
  induction jar as [|[k v] jar IH]; simpl; [tauto|].
  destruct (String.eqb k name); simpl; [split; discriminate | exact IH].
Qed.

Lemma lookup_cookie_In (name v : string) (jar : Jar) :
  lookup_cookie name jar = Some v -> In (name, v) jar.
Proof.
  induction jar as [|[k w] jar IH]; simpl; [discriminate|].
  destruct (String.eqb_spec k name) as [->|_].
  - intros [= ->]. left; reflexivity.
  - intros H. right. exact (IH H).
Qed.

(** X1.  On the cookie string of well-formed cookies, and for a name
    without [=], [getCookie] returns the value of the cookie of that name
    when exactly one cookie has the name; it returns nothing when no cookie
    has the name, and nothing either when several have it. *)
Theorem getCookie_reads_jar (jar : Jar) (name : string) :
  well_formed jar -> lacks "=" name = true ->
  (occurrences name jar = 1 ->
     exists v, In (name, v) jar
               /\ getCookie (Some (cookie_string jar)) name = Some v)
  /\ (occurrences name jar = 0 -> getCookie (Some (cookie_string jar)) name = None)
  /\ (2 <= occurrences name jar -> getCookie (Some (cookie_string jar)) name = None).
Proof.
  intros Hwf Hn. rewrite (getCookie_jar jar name Hwf Hn).
  split; [|split]; intros H.
  - rewrite H; simpl.
    destruct (lookup_cookie name jar) as [v|] eqn:E.
    + exists v. split; [now apply lookup_cookie_In | reflexivity].
    + apply occurrences_lookup in E. lia.
  - now rewrite H.
  - destruct (Nat.eqb_spec (occurrences name jar) 1); [lia | reflexivity].
Qed.

Lemma sample_jar_well_formed : well_formed MoreSamples.jar.
Proof. repeat constructor. Qed.

Lemma getCookie_reads_jar_witness :
  exists v, In ("lmsilo-theme", v) MoreSamples.jar
            /\ getCookie (Some (cookie_string MoreSamples.jar)) "lmsilo-theme" = Some v.
Proof.
  apply (proj1 (getCookie_reads_jar MoreSamples.jar "lmsilo-theme"
                  sample_jar_well_formed eq_refl)).
  reflexivity.
Defined.

(** X2.  [setCookie(name, value)], for a name without [;] and [=] and a
    value without [;] that make a cookie the store model answers for, on a
    page with well-formed cookies and at most one cookie of that name: the
    store then holds the name and the value without the blanks at their
    ends, and [getCookie] of that name returns that value.  For a name and
    a value without blanks at their ends, [getCookie(name)] returns the
    value that was set. *)
Theorem setCookie_then_getCookie (jar : Jar) (name value : string) :
  well_formed jar ->
  lacks ";" name = true -> lacks "=" name = true -> lacks ";" value = true ->
  covered (trim name) (trim value) = true ->
  occurrences (trim name) jar <= 1 ->
  exists jar',
    setCookie jar name value = Some jar'
    /\ getCookie (Some (cookie_string jar')) (trim name) = Some (trim value)
    /\ well_formed jar'
    /\ occurrences (trim name) jar' = 1.
Proof.
  intros Hwf Hn1 Hn2 Hv Hc Hocc.
  exists (upsert (trim name) (trim value) jar).
  split; [now apply setCookie_upsert|].
  pose proof (lacks_trim _ _ Hn1). pose proof (lacks_trim _ _ Hn2).
  pose proof (lacks_trim _ _ Hv).
  split; [now apply upsert_get|]. split.
  - now apply upsert_well_formed.
  - rewrite upsert_occurrences. lia.
Qed.

Lemma setCookie_then_getCookie_witness :
  exists jar',
    setCookie MoreSamples.jar "lmsilo-theme" " light " = Some jar'
    /\ getCookie (Some (cookie_string jar')) "lmsilo-theme" = Some "light"
    /\ well_formed jar'
    /\ occurrences "lmsilo-theme" jar' = 1.
Proof.
  apply (setCookie_then_getCookie MoreSamples.jar "lmsilo-theme" " light "
           sample_jar_well_formed eq_refl eq_refl eq_refl eq_refl).
  vm_compute. lia.
Defined.

(** X3.  Under the conditions of X2, [setCookie(name, value)] leaves what
    [getCookie] returns as it was for every name without [=] other than the
    name set, taken without the blanks at its ends. *)
Theorem setCookie_keeps_others (jar : Jar) (name value other : string) :
  well_formed jar ->
  lacks ";" name = true -> lacks "=" name = true -> lacks ";" value = true ->
  covered (trim name) (trim value) = true ->
  lacks "=" other = true -> other <> trim name ->
  exists jar',
    setCookie jar name value = Some jar'
    /\ getCookie (Some (cookie_string jar')) other
       = getCookie (Some (cookie_string jar)) other
    /\ lookup_cookie other jar' = lookup_cookie other jar.
Proof.
  intros Hwf Hn1 Hn2 Hv Hc Ho Hne.
  exists (upsert (trim name) (trim value) jar).
  split; [now apply setCookie_upsert|].
  pose proof (lacks_trim _ _ Hn1). pose proof (lacks_trim _ _ Hn2).
  pose proof (lacks_trim _ _ Hv).
  split; [now apply upsert_get_other|].
  exact (proj2 (upsert_other jar (trim name) (trim value) other Hne)).
Qed.

Lemma setCookie_keeps_others_witness :
  exists jar',
    setCookie MoreSamples.jar "lmsilo-theme" "light" = Some jar'
    /\ getCookie (Some (cookie_string jar')) "session"
       = getCookie (Some (cookie_string MoreSamples.jar)) "session"
    /\ lookup_cookie "session" jar' = lookup_cookie "session" MoreSamples.jar.
Proof.
  apply (setCookie_keeps_others MoreSamples.jar "lmsilo-theme" "light" "session"
           sample_jar_well_formed eq_refl eq_refl eq_refl eq_refl eq_refl).
  discriminate.
Defined.

End CookieProps.

(** ** The theme hook *)
Module ThemeProps.
Import Js Cookies Theme CookieProps.

Lemma theme_value_ok (b : bool) :
  lacks ";" (if b then "dark" else "light") = true.
Proof. destruct b; reflexivity. Qed.

(** The cookie the hook writes is stored as it is written. *)
Lemma theme_cookie_written (b : bool) (jar : Jar) :
  setCookie jar DARK_MODE_COOKIE (if b then "dark" else "light")
  = Some (upsert DARK_MODE_COOKIE (if b then "dark" else "light") jar).
Proof. destruct b; reflexivity. Qed.

Lemma apply_effect_cookies (b : bool) (doc : Document) :
  cookies (apply_effect b doc)
  = upsert DARK_MODE_COOKIE (if b then "dark" else "light") (cookies doc).
Proof. unfold apply_effect; cbn [cookies]. now rewrite theme_cookie_written. Qed.

Lemma apply_effect_tidy (b : bool) (doc : Document) :
  tidy doc -> tidy (apply_effect b doc).
Proof.
  intros [Hwf Hocc]. unfold tidy. rewrite apply_effect_cookies.
  split.
  - apply upsert_well_formed; try reflexivity; [apply theme_value_ok | exact Hwf].
  - rewrite upsert_occurrences. lia.
Qed.

Lemma apply_effect_cookie (b : bool) (doc : Document) :
  tidy doc ->
  getCookie (document_cookie (apply_effect b doc)) DARK_MODE_COOKIE
  = Some (if b then "dark" else "light").
Proof.
  intros [Hwf Hocc]. unfold document_cookie. rewrite apply_effect_cookies.
  apply upsert_get; try reflexivity; try assumption.
  apply theme_value_ok.
Qed.

Lemma init_effect_after_apply (b : bool) (doc : Document) :
  tidy doc -> init_effect (apply_effect b doc) = Some b.
Proof.
  intros Ht. unfold init_effect. rewrite apply_effect_cookie by exact Ht.
  destruct b; reflexivity.
Qed.

Lemma mount_after_apply (b : bool) (doc : Document) :
  tidy doc -> fst (mount (apply_effect b doc)) = b.
Proof.
  intros Ht. unfold mount. rewrite init_effect_after_apply by exact Ht.
  destruct b; reflexivity.
Qed.

Lemma mount_isDark (doc : Document) :
  fst (mount doc) = match init_effect doc with Some b => b | None => false end.
Proof. unfold mount. destruct (init_effect doc) as [[]|]; reflexivity. Qed.

Lemma mount_doc (doc : Document) :
  exists d, snd (mount doc) = apply_effect (fst (mount doc)) d /\ (tidy doc -> tidy d).
Proof.
  unfold mount. destruct (init_effect doc) as [[]|]; simpl.
  - exists (apply_effect false doc). split; [reflexivity | apply apply_effect_tidy].
  - exists doc. auto.
  - exists doc. auto.
Qed.

Lemma classList_add_elem (c d : string) (l : list string) :
  d ∈ classList_add c l <-> d = c \/ d ∈ l.
Proof.
  unfold classList_add. case_bool_decide as H.
  - split; [tauto | intros [E|E]; [subst d; exact H | exact E]].
  - rewrite elem_of_app, elem_of_cons, elem_of_nil. tauto.
Qed.

Lemma classList_remove_elem (c d : string) (l : list string) :
  d ∈ classList_remove c l <-> d <> c /\ d ∈ l.
Proof. unfold classList_remove. rewrite list_elem_of_filter. reflexivity. Qed.

Lemma apply_effect_elem (b : bool) (doc : Document) (c : string) :
  c ∈ classList (apply_effect b doc) <->
  String.prefix "theme-" c = false
  /\ (if String.eqb c "dark" then b = true else c ∈ classList doc).
Proof.
  unfold apply_effect; cbn [classList].
  rewrite list_elem_of_filter.
  destruct (String.eqb_spec c "dark") as [->|Hne].
  - destruct b.
    + rewrite classList_add_elem. intuition.
    + rewrite classList_remove_elem. intuition congruence.
  - destruct b.
    + rewrite classList_add_elem. intuition.
    + rewrite classList_remove_elem. intuition.
Qed.

(** X6.  After the hook has mounted on a tidy page, the theme cookie says
    [dark] or [light] as [isDark] does, the root element has the class
    [dark] exactly when [isDark] holds, and mounting again on the page as it
    was left gives the same [isDark]. *)
Theorem mount_consistent (doc : Document) :
  tidy doc ->
  getCookie (document_cookie (snd (mount doc))) DARK_MODE_COOKIE
    = Some (if fst (mount doc) then "dark" else "light")
  /\ ("dark" ∈ classList (snd (mount doc)) <-> fst (mount doc) = true)
  /\ fst (mount (snd (mount doc))) = fst (mount doc).
Proof.
  intros Ht. destruct (mount_doc doc) as (d & Hd & Htd). specialize (Htd Ht).
  rewrite Hd. split; [|split].
  - now apply apply_effect_cookie.
  - rewrite apply_effect_elem. simpl. intuition.
  - now apply mount_after_apply.
Qed.

(** X4.  After the second effect has run with [isDark], the class list of
    the root element holds [dark] exactly when [isDark] holds, holds no
    class that starts with [theme-], and holds every other class exactly
    when it held it before. *)
Theorem apply_effect_classes (b : bool) (doc : Document) :
  ("dark" ∈ classList (apply_effect b doc) <-> b = true)
  /\ (forall c, c ∈ classList (apply_effect b doc) -> String.prefix "theme-" c = false)
  /\ (forall c, c <> "dark" -> String.prefix "theme-" c = false ->
        (c ∈ classList (apply_effect b doc) <-> c ∈ classList doc)).
Proof.
  split; [|split].
  - rewrite apply_effect_elem. simpl. intuition.
  - intros c Hc. apply apply_effect_elem in Hc. tauto.
  - intros c Hne Hp. rewrite apply_effect_elem.
    apply String.eqb_neq in Hne. rewrite Hne. tauto.
Qed.

Lemma apply_effect_classes_witness :
  "app" ∈ classList (apply_effect true MoreSamples.page)
  <-> "app" ∈ classList MoreSamples.page.
Proof.
  apply (proj2 (proj2 (apply_effect_classes true MoreSamples.page)) "app").
  - discriminate.
  - reflexivity.
Defined.

Lemma sample_page_tidy : tidy MoreSamples.page.
Proof. split; [repeat constructor | vm_compute; lia]. Qed.

(** X5.  The theme survives a reload: on a tidy page, after the effect has
    run with [isDark] (as it does after the mount and after every
    [toggle]), mounting the hook again yields the same [isDark], whatever
    the system preference is. *)
Theorem theme_survives_reload (b : bool) (doc : Document) :
  tidy doc ->
  fst (mount (apply_effect b doc)) = b
  /\ fst (mount (snd (toggle (b, doc)))) = negb b
  /\ fst (toggle (toggle (b, doc))) = b.
Proof.
  intros Ht. split; [now apply mount_after_apply|]. split.
  - unfold toggle; cbn [fst snd]. now apply mount_after_apply.
  - unfold toggle; cbn [fst snd]. apply negb_involutive.
Qed.

Lemma theme_survives_reload_witness :
  fst (mount (apply_effect false MoreSamples.page)) = false.
Proof.
  exact (proj1 (theme_survives_reload false MoreSamples.page sample_page_tidy)).
Defined.

Lemma mount_consistent_witness :
  fst (mount (snd (mount MoreSamples.page))) = fst (mount MoreSamples.page).
Proof.
  exact (proj2 (proj2 (mount_consistent MoreSamples.page sample_page_tidy))).
Defined.

(** X7.  On mounting, a theme cookie that is present once and not empty
    decides: [isDark] holds exactly when its value is [dark].  Without such
    a cookie (none, an empty one, or several of the name) the system
    preference decides. *)
Theorem mount_follows_cookie (doc : Document) :
  well_formed (cookies doc) ->
  fst (mount doc) =
  match (if (occurrences DARK_MODE_COOKIE (cookies doc) =? 1)%nat
         then lookup_cookie DARK_MODE_COOKIE (cookies doc) else None) with
  | Some (String c rest) => String.eqb (String c rest) "dark"
  | _ => prefersDark doc
  end.
Proof.
  intros Hwf. rewrite mount_isDark. unfold init_effect, document_cookie.
  rewrite (getCookie_jar (cookies doc) DARK_MODE_COOKIE Hwf eq_refl).
  destruct (if (occurrences DARK_MODE_COOKIE (cookies doc) =? 1)%nat
            then lookup_cookie DARK_MODE_COOKIE (cookies doc) else None)
    as [[|c rest]|]; try reflexivity; destruct (prefersDark doc); reflexivity.
Qed.

Lemma mount_follows_cookie_witness :
  fst (mount MoreSamples.page) = false.
Proof.
  apply (mount_follows_cookie MoreSamples.page).
  repeat constructor.
Defined.

End ThemeProps.

(** ** The queue item *)
Module QueueItemProps.
Import Js JobQueue QueueItem.

(** X8.  Every status [QueueItem] treats as being processed gets the
    processing configuration of [getStatusConfig]; the one status that gets
    the processing configuration without being treated as processed is
    [diarizing], in any letter case. *)
Theorem isProcessing_config (s : string) :
  (isProcessing s = true -> getStatusConfig s = processingConfig)
  /\ (getStatusConfig s = processingConfig /\ isProcessing s = false
      <-> toLowerCase s = "diarizing").
Proof.
  unfold isProcessing, getStatusConfig, includes.
  unfold processingStatuses, completedWords, failedWords, processingWords.
  set (l := toLowerCase s).
  split.
  - intros H. apply bool_decide_eq_true in H.
    rewrite !elem_of_cons, elem_of_nil in H.
    repeat (destruct H as [-> | H]; [reflexivity|]). destruct H.
  - split.
    + intros [Hc Hp]. apply bool_decide_eq_false in Hp.
      repeat case_bool_decide; try discriminate.
      rewrite !elem_of_cons, elem_of_nil in *. intuition.
    + intros ->. split; reflexivity.
Qed.




Lemma isProcessing_config_witness :
  getStatusConfig "Transcribing" = processingConfig
  /\ toLowerCase "DIARIZING" = "diarizing".
Proof.
  split.
  - apply (proj1 (isProcessing_config "Transcribing")). reflexivity.
  - apply (proj1 (proj2 (isProcessing_config "DIARIZING"))). split; reflexivity.
Defined.


Example formatStatus_examples :
  formatStatus MoreSamples.upperAscii "" = ""
  /\ formatStatus MoreSamples.upperAscii "queued" = "Queued"
  /\ formatStatus MoreSamples.upperAscii "_hidden" = "_hidden"
  /\ formatStatus MoreSamples.upperAscii "a_b_c" = "A b_c".
Proof. repeat split. Qed.

End QueueItemProps.

(** ** The badge table *)
Module BadgeProps.
Import Js StatusBadge.

Lemma lookup_config_keys (s : string) :
  s ∉ map fst statusConfig -> lookup_config s statusConfig = None.
Proof.
  unfold statusConfig. cbn [map fst lookup_config].
  rewrite !not_elem_of_cons. intros H.
  repeat match goal with
  | |- context [String.eqb ?k s] =>
      destruct (String.eqb_spec k s) as [E|_]; [exfalso; intuition congruence|]
  end.
  reflexivity.
Qed.

Lemma keys_lower (k : string) :
  k ∈ map fst statusConfig -> toLowerCase k = k.
Proof.
  unfold statusConfig; simpl. rewrite !elem_of_cons, elem_of_nil.
  intros H; repeat (destruct H as [-> | H]; [reflexivity|]); destruct H.
Qed.

(** X10.  The badge table matches the exact spelling only: a status that
    differs from a key of the table just by the case of its letters gets
    the grey fallback badge, labelled with the status as it was given. *)
Theorem badge_exact_match_only (s k : string) :
  k ∈ map fst statusConfig -> toLowerCase s = k -> s <> k ->
  badgeConfig s = mkBadge "#f3f4f6" "#6b7280" s.
Proof.
  intros Hk Hl Hne.
  assert (Hs : s ∉ map fst statusConfig).
  { intros Hin. apply keys_lower in Hin. congruence. }
  assert (Hi : includes inheritedNames s = false).
  { apply bool_decide_eq_false. intros Hin. subst k. revert Hk.
    unfold inheritedNames in Hin. rewrite !elem_of_cons, elem_of_nil in Hin.
    unfold statusConfig; cbn [map fst]. rewrite !elem_of_cons, elem_of_nil.
    repeat (destruct Hin as [-> | Hin];
            [vm_compute; intuition discriminate|]).
    destruct Hin. }
  unfold badgeConfig. now rewrite lookup_config_keys, Hi.
Qed.

Lemma badge_exact_match_only_witness :
  badgeConfig "FAILED" = mkBadge "#f3f4f6" "#6b7280" "FAILED".
Proof.
  apply (badge_exact_match_only "FAILED" "failed").
  - vm_compute. set_solver.
  - reflexivity.
  - discriminate.
Defined.

End BadgeProps.

(** ** The socket hook: retries, close events and [send] *)
Module WebSocketMoreProps.
Import Js WebSocketHook WebSocketSend.

Lemma connect_timers (p : Platform) (st : State) :
  timers (connect p st) = timers st.
Proof.
  unfold connect. destruct (current_is_open st); [reflexivity|].
  destruct (url_accepted p); reflexivity.
Qed.

Lemma disconnect_timers (st : State) :
  timers (disconnect st) ⊆ timers st.
Proof.
  unfold disconnect, close.
  destruct (reconnectTimeoutRef st) as [t|]; [destruct (t =? 0)%nat|]; simpl;
    (destruct (wsRef st) as [sock|]; simpl;
     [destruct (sockets st !! sock) as [[]|]; simpl|]);
    intros x Hx; try exact Hx; apply elem_of_difference in Hx; tauto.
Qed.

Lemma step_budget (o : Options) (p : Platform) (st st' : State) (ev : Event) :
  is_open_event ev = false ->
  step o p st ev = Some st' ->
  (Z.of_nat (size (timers st')) + Z.of_nat (count_fires [ev])
   <= Z.of_nat (size (timers st))
      + (reconnectAttemptsRef st' - reconnectAttemptsRef st))%Z.
Proof.
  intros Hno H.
  pose proof (WebSocketProps.step_attempts o p st st' ev H) as Ha.
  destruct ev as [| |t|sock|sock data|sock|sock];
    cbn [step is_open_event count_fires] in *; try discriminate.
  - injection H as <-. destruct Ha as [-> _]. rewrite connect_timers. lia.
  - injection H as <-. destruct Ha as [-> _].
    pose proof (subseteq_size _ _ (disconnect_timers st)). lia.
  - destruct (bool_decide (t ∈ timers st)) eqn:E; [|discriminate].
    apply bool_decide_eq_true in E.
    injection H as <-. destruct Ha as [-> _]. rewrite connect_timers.
    cbn [timers clearTimeout].
    assert (Hsz : size (timers st ∖ {[t]}) = size (timers st) - 1).
    { rewrite size_difference by (apply singleton_subseteq_l; exact E).
      now rewrite size_singleton. }
    assert (Hnz : size (timers st) <> 0).
    { intros Hz. apply size_empty_inv in Hz.
      rewrite Hz in E. exact (not_elem_of_empty t E). }
    lia.
  - destruct (bool_decide (readyState st sock = Some OPEN)); [|discriminate].
    injection H as <-. destruct Ha as [-> _].
    unfold onmessage. destruct (JSON_parse p data); cbn; lia.
  - destruct (not_closed st sock); [|discriminate].
    injection H as <-. destruct Ha as [-> _]. cbn. lia.
  - destruct Ha as [_ Ha].
    destruct (reconnect o && (reconnectAttemptsRef st <? maxReconnectAttempts o)%Z).
    + destruct Ha as [-> ->].
      assert (size ({[next_timer st]} ∪ timers st) <= 1 + size (timers st)).
      { rewrite size_union_alt, size_singleton.
        assert (Hsub : timers st ∖ {[next_timer st]} ⊆ timers st).
        { intros x Hx. apply elem_of_difference in Hx. tauto. }
        pose proof (subseteq_size _ _ Hsub). lia. }
      lia.
    + destruct Ha as [-> ->]. lia.
Qed.

Lemma count_fires_cons (ev : Event) (evs : list Event) :
  count_fires (ev :: evs) = count_fires [ev] + count_fires evs.
Proof. destruct ev; reflexivity. Qed.

Lemma run_budget (o : Options) (p : Platform) (evs : list Event) :
  forall st st',
    Forall (fun ev => is_open_event ev = false) evs ->
    run o p st evs = Some st' ->
    (Z.of_nat (size (timers st')) + Z.of_nat (count_fires evs)
     <= Z.of_nat (size (timers st))
        + (reconnectAttemptsRef st' - reconnectAttemptsRef st))%Z.
Proof.
  induction evs as [|ev evs IH]; intros st st' Hall H.
  - simpl in H. injection H as <-. simpl. lia.
  - inversion Hall as [|? ? Hev Hrest]; subst.
    simpl in H. destruct (step o p st ev) as [st1|] eqn:Hs; [|discriminate].
    pose proof (step_budget o p st st1 ev Hev Hs).
    pose proof (IH st1 st' Hrest H).
    rewrite count_fires_cons. lia.
Qed.

(** X11.  Automatic reconnects are limited.  From a state whose counter is
    within the maximum, along any events among which no socket opens, the
    timeouts that fire and those still armed at the end number at most the
    timeouts armed at the start plus what the counter had left up to the
    maximum. *)
Theorem reconnects_limited (o : Options) (p : Platform) (st st' : State)
    (evs : list Event) :
  (0 <= reconnectAttemptsRef st <= maxReconnectAttempts o)%Z ->
  Forall (fun ev => is_open_event ev = false) evs ->
  run o p st evs = Some st' ->
  (Z.of_nat (count_fires evs) + Z.of_nat (size (timers st'))
   <= Z.of_nat (size (timers st))
      + (maxReconnectAttempts o - reconnectAttemptsRef st))%Z.
Proof.
  intros Hb Hall Hrun.
  pose proof (run_budget o p evs st st' Hall Hrun).
  pose proof (WebSocketProps.run_bound o p evs st st' Hb Hrun).
  lia.
Qed.

Lemma send_needs_ref {A : Type} (f : A -> string) (st : State) (d : string + A) :
  wsRef st = None -> send f st d = None.
Proof. unfold send, current_is_open. intros ->. reflexivity. Qed.

(** X12.  The close event of any socket, the current one or an older one,
    clears the reference to the current socket and leaves the ready state of
    every other socket as it was; [send] then sends nothing, even when
    another socket is still open. *)
Theorem close_event_clears_current (o : Options) (p : Platform)
    (st st' : State) (sock : nat) :
  step o p st (SocketCloses sock) = Some st' ->
  wsRef st' = None
  /\ (forall other, other <> sock -> readyState st' other = readyState st other)
  /\ (forall (A : Type) (f : A -> string) (d : string + A), send f st' d = None).
Proof.
  cbn [step]. destruct (not_closed st sock); [|discriminate].
  intros [= <-].
  assert (Hw : wsRef (onclose o (set_readyState sock CLOSED st)) = None).
  { unfold onclose. destruct (_ && _); reflexivity. }
  split; [exact Hw|]. split.
  - intros other Hne. unfold onclose, readyState.
    destruct (_ && _); cbn; apply lookup_insert_ne; congruence.
  - intros A f d. now apply send_needs_ref.
Qed.

(** X13.  When the last socket closes with no retry allowed (auto
    reconnect off, or the counter at the maximum) and no timeout armed, the
    status is [disconnected] and stays so: no event of the browser can
    reach the hook any more, only a call can. *)
Theorem exhausted_stays_disconnected (o : Options) (p : Platform)
    (st st' : State) (sock : nat) :
  reconnect o && (reconnectAttemptsRef st <? maxReconnectAttempts o)%Z = false ->
  timers st = ∅ ->
  (forall other, other <> sock -> not_closed st other = false) ->
  step o p st (SocketCloses sock) = Some st' ->
  status st' = disconnected
  /\ forall ev, is_call ev = false -> step o p st' ev = None.
Proof.
  intros Hex Ht Hothers. cbn [step].
  destruct (not_closed st sock); [|discriminate].
  intros [= <-]. unfold onclose. cbn [reconnectAttemptsRef set_wsRef setStatus set_readyState].
  rewrite Hex. split; [reflexivity|].
  assert (Hrs : forall s, not_closed
            (set_wsRef None (setStatus disconnected (set_readyState sock CLOSED st))) s
            = false).
  { intros s. unfold not_closed, readyState; cbn.
    destruct (decide (s = sock)) as [->|Hne].
    - now rewrite lookup_insert_eq.
    - rewrite lookup_insert_ne by congruence.
      specialize (Hothers s Hne). unfold not_closed, readyState in Hothers.
      exact Hothers. }
  intros ev Hev. destruct ev as [| |t|s|s data|s|s]; try discriminate; cbn [step].
  - cbn [timers set_wsRef setStatus set_readyState]. rewrite Ht.
    rewrite bool_decide_eq_false_2 by apply not_elem_of_empty. reflexivity.
  - specialize (Hrs s). unfold not_closed in Hrs.
    case_bool_decide as E; [|reflexivity]. rewrite E in Hrs. discriminate.
  - specialize (Hrs s). unfold not_closed in Hrs.
    case_bool_decide as E; [|reflexivity]. rewrite E in Hrs. discriminate.
  - now rewrite Hrs.
  - now rewrite Hrs.
Qed.

Lemma reconnects_limited_witness :
  (Z.of_nat (count_fires MoreSamples.retryingTrace)
   + Z.of_nat (size (timers MoreSamples.retryingState))
   <= Z.of_nat (size (timers initial))
      + (maxReconnectAttempts MoreSamples.oneRetry - reconnectAttemptsRef initial))%Z.
Proof.
  apply (reconnects_limited MoreSamples.oneRetry Samples.platform initial
           MoreSamples.retryingState MoreSamples.retryingTrace).
  - vm_compute. split; discriminate.
  - repeat constructor.
  - vm_compute. reflexivity.
Defined.

Example retries_counted :
  count_fires MoreSamples.retryingTrace = 1
  /\ reconnectAttemptsRef MoreSamples.retryingState = 1%Z
  /\ wsRef MoreSamples.retryingState = Some 1.
Proof. repeat split. Qed.

Lemma close_event_clears_current_witness :
  wsRef (onclose defaultOptions
           (set_readyState 0 CLOSED (connect Samples.platform Samples.connectingState)))
  = None
  /\ readyState
       (onclose defaultOptions
          (set_readyState 0 CLOSED (connect Samples.platform Samples.connectingState)))
       1
     = readyState (connect Samples.platform Samples.connectingState) 1.
Proof.
  assert (Hstep :
    step defaultOptions Samples.platform
         (connect Samples.platform Samples.connectingState) (SocketCloses 0)
    = Some (onclose defaultOptions
              (set_readyState 0 CLOSED
                 (connect Samples.platform Samples.connectingState)))).
  { vm_compute. reflexivity. }
  pose proof (close_event_clears_current defaultOptions Samples.platform
                _ _ 0 Hstep) as (Hw & Hr & _).
  split; [exact Hw|]. apply Hr. discriminate.
Defined.

Lemma exhausted_stays_disconnected_witness :
  status (onclose MoreSamples.oneRetry
            (set_readyState 1 CLOSED MoreSamples.retryingState)) = disconnected
  /\ step MoreSamples.oneRetry Samples.platform
          (onclose MoreSamples.oneRetry
             (set_readyState 1 CLOSED MoreSamples.retryingState))
          (TimerFires 1) = None.
Proof.
  assert (Hstep :
    step MoreSamples.oneRetry Samples.platform MoreSamples.retryingState
         (SocketCloses 1)
    = Some (onclose MoreSamples.oneRetry
              (set_readyState 1 CLOSED MoreSamples.retryingState))).
  { vm_compute. reflexivity. }
  assert (Hothers : forall other, other <> 1 ->
            not_closed MoreSamples.retryingState other = false).
  { assert (Hs : sockets MoreSamples.retryingState
                 = <[1 := CONNECTING]> (<[0 := CLOSED]> ∅))
      by (vm_compute; reflexivity).
    intros other Hne. unfold not_closed, readyState. rewrite Hs.
    rewrite lookup_insert_ne by congruence.
    destruct (decide (other = 0)) as [->|H0].
    - rewrite lookup_insert_eq. reflexivity.
    - rewrite lookup_insert_ne by congruence. rewrite lookup_empty. reflexivity. }
  assert (Hex : reconnect MoreSamples.oneRetry
                && (reconnectAttemptsRef MoreSamples.retryingState
                    <? maxReconnectAttempts MoreSamples.oneRetry)%Z = false).
  { vm_compute. reflexivity. }
  assert (Ht : timers MoreSamples.retryingState = ∅).
  { vm_compute. reflexivity. }
  pose proof (exhausted_stays_disconnected MoreSamples.oneRetry Samples.platform
                _ _ 1 Hex Ht Hothers Hstep) as [Hs Hq].
  split; [exact Hs|]. apply Hq. reflexivity.
Defined.

End WebSocketMoreProps.

(** ** The request hook: overlapping calls and headers *)
Module ApiCallsProps.
Import Js Api ApiCalls.

Lemma fetchData_phases (o : Options) (net : Network) (st : State)
    (url : string) (ro : RequestInit) :
  fst (fetchData o net st url ro)
  = settle_fetch (net (fetchRequest o url ro)) (begin_call st).
Proof.
  unfold fetchData, settle_fetch, begin_call.
  destruct (bind (net (fetchRequest o url ro)) handleResponse); reflexivity.
Qed.

Lemma del_phases (o : Options) (net : Network) (st : State) (url : string) :
  fst (del o net st url) = settle_del (net (delRequest o url)) (begin_call st).
Proof.
  unfold del, settle_del, begin_call.
  destruct (bind (net (delRequest o url)) delResponse); reflexivity.
Qed.

(** X14.  Two [fetch] calls in flight at once on one hook.  Issuing the
    second changes nothing the first has not set already.  When the first
    response settles, [loading] is false although the other call is still
    in flight.  The data cell ends with the result of the call that settles
    last, and a success of that call does not clear the error the earlier
    one stored. *)
Theorem overlapping_calls (st : State) (a1 a2 : Outcome Response) :
  begin_call (begin_call st) = begin_call st
  /\ loading (settle_fetch a1 (begin_call (begin_call st))) = false
  /\ (forall v, bind a2 handleResponse = Ok v ->
        data (settle_fetch a2 (settle_fetch a1 (begin_call (begin_call st)))) = v
        /\ error (settle_fetch a2 (settle_fetch a1 (begin_call (begin_call st))))
           = error (settle_fetch a1 (begin_call st)))
  /\ (forall e v, bind a1 handleResponse = Throw e ->
        bind a2 handleResponse = Ok v ->
        settle_fetch a2 (settle_fetch a1 (begin_call (begin_call st)))
        = {| data := v; error := e; loading := false |}).
Proof.
  assert (Hb : begin_call (begin_call st) = begin_call st) by reflexivity.
  split; [exact Hb|]. rewrite Hb. split; [|split].
  - unfold settle_fetch. destruct (bind a1 handleResponse); reflexivity.
  - intros v H2. unfold settle_fetch at 1 3. rewrite H2. split; reflexivity.
  - intros e v H1 H2. unfold settle_fetch. rewrite H1, H2. reflexivity.
Qed.

(** X15.  The headers member of the request [fetchData] hands to [fetch],
    with names compared exactly, as object keys are.  When the call gives
    its headers as a plain object, a header of the call overrides the
    default header of the same name and the defaults are there for all
    other names.  When the call gives them as a [Headers] instance, or
    gives none, none of its headers is there: the defaults alone are.
    [post] and [put] always carry [Content-Type] with the value
    [application/json] and the defaults for all other names; [del] carries
    the defaults alone. *)
Theorem request_headers (o : Options) (url : string) (ro : RequestInit)
    (method : string) (body : option string) (k : string) :
  (forall m, init_headers ro = Some (HeadersRecord m) ->
      req_headers (fetchRequest o url ro) !! k
      = match m !! k with
        | Some v => Some v
        | None => headers o !! k
        end)
  /\ (forall m, init_headers ro = Some (HeadersInstance m) ->
      req_headers (fetchRequest o url ro) = headers o)
  /\ (init_headers ro = None -> req_headers (fetchRequest o url ro) = headers o)
  /\ req_headers (fetchRequest o url (jsonInit method body)) !! "Content-Type"
     = Some "application/json"
  /\ (k <> "Content-Type" ->
      req_headers (fetchRequest o url (jsonInit method body)) !! k = headers o !! k)
  /\ req_headers (delRequest o url) !! k = headers o !! k.
Proof.
  unfold fetchRequest, jsonInit, delRequest; cbn [req_headers init_headers].
  split; [|split; [|split; [|split; [|split]]]].
  - intros m ->. cbn [spread_headers]. rewrite lookup_union.
    destruct (m !! k), (headers o !! k); reflexivity.
  - intros m ->. cbn [spread_headers]. apply (left_id_L ∅ (∪)).
  - intros ->. cbn [spread_headers]. apply (left_id_L ∅ (∪)).
  - cbn [spread_headers]. rewrite lookup_union, lookup_singleton_eq.
    destruct (headers o !! "Content-Type"); reflexivity.
  - intros Hne. cbn [spread_headers].
    rewrite lookup_union, lookup_singleton_ne by congruence.
    destruct (headers o !! k); reflexivity.
  - reflexivity.
Qed.

Lemma overlapping_calls_witness :
  settle_fetch (Ok (MoreSamples.okResponse (JStr "second")))
    (settle_fetch (Ok Samples.brokenResponse) (begin_call (begin_call initial)))
  = {| data := VJson (JStr "second");
       error := VJson (apiError "unknown_error" "ERR_UNKNOWN" "HTTP 500");
       loading := false |}.
Proof.
  apply (proj2 (proj2 (proj2 (overlapping_calls initial (Ok Samples.brokenResponse)
           (Ok (MoreSamples.okResponse (JStr "second"))))))); reflexivity.
Defined.

Lemma request_headers_witness :
  req_headers (fetchRequest MoreSamples.apiWithHeaders "/jobs"
                 MoreSamples.initWithRecord) !! "Accept"
    = Some "application/json"
  /\ req_headers (fetchRequest MoreSamples.apiWithHeaders "/jobs"
                    MoreSamples.initWithInstance) !! "Accept"
     = Some "text/plain"
  /\ req_headers (fetchRequest MoreSamples.apiWithHeaders "/jobs"
                    (jsonInit "POST" None)) !! "X-Token"
     = Some "t0k".
Proof.
  split; [|split].
  - refine (eq_trans (proj1 (request_headers MoreSamples.apiWithHeaders "/jobs"
              MoreSamples.initWithRecord "GET" None "Accept")
              MoreSamples.acceptJson eq_refl) _).
    vm_compute. reflexivity.
  - rewrite (proj1 (proj2 (request_headers MoreSamples.apiWithHeaders "/jobs"
              MoreSamples.initWithInstance "GET" None "Accept"))
              MoreSamples.acceptJson eq_refl).
    vm_compute. reflexivity.
  - refine (eq_trans (proj1 (proj2 (proj2 (proj2 (proj2
              (request_headers MoreSamples.apiWithHeaders "/jobs" noInit
                 "POST" None "X-Token"))))) _) _).
    + discriminate.
    + vm_compute. reflexivity.
Defined.

End ApiCallsProps.

(** ** The error boundary *)
Module ErrorBoundaryProps.
Import ErrorBoundary.

(** X16.  A boundary with a truthy [fallback] never leaves the error
    state: once a child has thrown, it renders the fallback and no event it
    handles can follow, since the "Try again" button belongs to the default
    view. *)
Theorem fallback_never_recovers (props : Props) (f : Node) (e : ErrorObject)
    (evs : list Event) (st : State) :
  fallback props = Some f -> truthy f = true ->
  run props initial (ChildThrows e :: evs) = Some st ->
  evs = [] /\ render props st = ShowFallback f.
Proof.
  intros Hf Ht H.
  assert (Hr : render props (getDerivedStateFromError e) = ShowFallback f).
  { unfold render; cbn. now rewrite Hf, Ht. }
  change (run props initial (ChildThrows e :: evs))
    with (run props (getDerivedStateFromError e) evs) in H.
  destruct evs as [|ev evs]; cbn [run] in H.
  - injection H as <-. auto.
  - unfold step in H. rewrite Hr in H. destruct ev; discriminate.
Qed.

(** X17.  A boundary without a truthy [fallback] renders the default view
    after a child has thrown, with the message of the error, or with the
    stock text when that message is empty; "Try again" then brings back the
    initial state, in which the children are rendered. *)
Theorem default_view_recovers (props : Props) (e : ErrorObject) :
  match fallback props with Some f => truthy f = false | None => True end ->
  render props (getDerivedStateFromError e)
    = ShowDefault (match message e with
                   | EmptyString => "An unexpected error occurred"
                   | m => m
                   end)
  /\ run props initial [ChildThrows e; ClickTryAgain] = Some initial
  /\ render props initial = ShowChildren (children props).
Proof.
  intros Hf.
  assert (Hr : render props (getDerivedStateFromError e)
               = ShowDefault (shownMessage (getDerivedStateFromError e))).
  { unfold render; cbn. destruct (fallback props) as [f|]; [now rewrite Hf | reflexivity]. }
  split; [rewrite Hr; reflexivity|]. split; [|reflexivity].
  change (run props initial [ChildThrows e; ClickTryAgain])
    with (run props (getDerivedStateFromError e) [ClickTryAgain]).
  cbn [run]. unfold step. rewrite Hr. reflexivity.
Qed.

Lemma fallback_never_recovers_witness :
  render MoreSamples.boundaryWithFallback
         (getDerivedStateFromError MoreSamples.renderError)
  = ShowFallback (Text "Something went wrong").
Proof.
  apply (fallback_never_recovers MoreSamples.boundaryWithFallback
           (Text "Something went wrong") MoreSamples.renderError []); reflexivity.
Defined.

Lemma default_view_recovers_witness :
  run MoreSamples.boundaryPlain initial
      [ChildThrows MoreSamples.renderError; ClickTryAgain] = Some initial.
Proof.
  apply (default_view_recovers MoreSamples.boundaryPlain MoreSamples.renderError).
  exact I.
Defined.

Example step_after_fallback :
  step MoreSamples.boundaryWithFallback
       (getDerivedStateFromError MoreSamples.renderError) ClickTryAgain = None.
Proof. reflexivity. Qed.

End ErrorBoundaryProps.

(** ** The theme of the portal *)
Module PortalProps.
Import Portal.

(** X18.  The portal keeps its theme across a reload: loading the page over
    the storage a toggle has written gives back the state the toggle left,
    and two toggles restore [isDark].  A first visit, with nothing stored,
    is dark; a stored value makes the page dark exactly when it is [dark]
    or empty. *)
Theorem reload_restores_theme (st : State) :
  load (stored (toggleTheme st)) = toggleTheme st
  /\ isDark (toggleTheme (toggleTheme st)) = isDark st
  /\ isDark (load None) = true
  /\ (forall s, isDark (load (Some s)) = true <-> s = "dark" \/ s = "").
Proof.
  split; [|split; [|split]].
  - unfold toggleTheme, load; cbn. destruct (isDark st); reflexivity.
  - unfold toggleTheme; cbn. apply negb_involutive.
  - reflexivity.
  - intros s. unfold load, prefersDark; cbn.
    rewrite orb_true_iff, !String.eqb_eq. tauto.
Qed.

Lemma reload_restores_theme_witness :
  isDark (load (Some "dark")) = true.
Proof.
  apply (proj2 (proj2 (proj2 (reload_restores_theme (load None))))).
  left. reflexivity.
Defined.

End PortalProps.
